(** * Type registry and dependency resolver of protoc-gen-grpc-gateway-ts

    A shallow embedding of [src/registry/registry.go]: the externality
    predicate [isExternalDependenciesOutsidePackage] and the dependency
    resolver [collectExternalDependenciesFromData], together with the parts
    of the Go standard library they call ([strings.Index], [strings.LastIndex],
    [strings.ReplaceAll], [path.Clean], [path.Join], [filepath.Dir],
    [filepath.Rel], [filepath.Abs]) on a Unix host, where the path separator
    is ['/'] and [filepath.ToSlash] / [filepath.FromSlash] are the identity. *)

From stdpp Require Import base gmap strings list fin_maps.
From Stdlib Require Import ZArith Lia Ascii.

Local Open Scope Z_scope.

(** ** Outcomes of Go code

    A Go function of this package either returns normally ([Ret]), returns a
    non-nil [error] value ([Fail], with the error's message), or aborts with a
    runtime panic ([Crash], e.g. an index or slice out of range). *)

Inductive status (A : Type) : Type :=
| Ret (a : A)
| Fail (msg : string)
| Crash (msg : string).
Arguments Ret {A} a.
Arguments Fail {A} msg.
Arguments Crash {A} msg.

Global Instance status_ret : MRet status := fun A a => Ret a.
Global Instance status_bind : MBind status := fun A B k m =>
  match m with
  | Ret a => k a
  | Fail e => Fail e
  | Crash e => Crash e
  end.

(** [errors.Wrapf(err, format, args...)]: the context, then [": "], then the
    wrapped error's message. *)
Definition wrapf (ctx err : string) : string := ctx +:+ ": " +:+ err.

(** ** Strings *)

Definition slash : Ascii.ascii := "/"%char.

(** [strings.HasPrefix(s, p)]. *)
Fixpoint has_prefix (p s : string) : bool :=
  match p, s with
  | EmptyString, _ => true
  | String c p', String d s' => if decide (c = d) then has_prefix p' s' else false
  | String _ _, EmptyString => false
  end.

(** [strings.Index(s, sub)]: the first index of [sub] in [s], or -1. *)
Fixpoint Index (s sub : string) : Z :=
  if has_prefix sub s then 0 else
  match s with
  | EmptyString => -1
  | String _ s' => let r := Index s' sub in if r <? 0 then -1 else r + 1
  end.

(** [strings.LastIndex(s, sub)]: the last index of [sub] in [s], or -1. *)
Fixpoint LastIndex (s sub : string) : Z :=
  match s with
  | EmptyString => if has_prefix sub s then 0 else -1
  | String _ s' =>
      let r := LastIndex s' sub in
      if 0 <=? r then r + 1 else if has_prefix sub s then 0 else -1
  end.

(** [s[0:i]]: Go panics when [i] is negative or beyond [len(s)]. *)
Definition slice_to (s : string) (i : Z) : status string :=
  if (0 <=? i) && (i <=? Z.of_nat (String.length s))
  then Ret (String.substring 0 (Z.to_nat i) s)
  else Crash "runtime error: slice bounds out of range".

(** [strings.ReplaceAll(s, old, new)] for a non-empty [old]: non-overlapping
    occurrences, scanned left to right; [skip] counts the characters of an
    occurrence already replaced. *)
Fixpoint replace_nonempty (old new : string) (skip : nat) (s : string) : string :=
  match s with
  | EmptyString => EmptyString
  | String c s' =>
      match skip with
      | S k => replace_nonempty old new k s'
      | O => if has_prefix old s
             then new +:+ replace_nonempty old new (pred (String.length old)) s'
             else String c (replace_nonempty old new O s')
      end
  end.

(** For an empty [old], Go inserts [new] before every character and at the
    end (all characters here are single-byte). *)
Fixpoint replace_empty (new s : string) : string :=
  match s with
  | EmptyString => new
  | String c s' => new +:+ String c (replace_empty new s')
  end.

Definition ReplaceAll (s old new : string) : string :=
  match old with
  | EmptyString => replace_empty new s
  | _ => replace_nonempty old new O s
  end.

(** [strings.Split(s, "/")]: never empty. *)
Fixpoint split_slash (s : string) : list string :=
  match s with
  | EmptyString => [EmptyString]
  | String c s' =>
      let rest := split_slash s' in
      if decide (c = slash) then EmptyString :: rest
      else match rest with
           | [] => [String c EmptyString]
           | h :: t => String c h :: t
           end
  end.

(** [strings.Join(l, "/")]. *)
Fixpoint join_slash (l : list string) : string :=
  match l with
  | [] => EmptyString
  | [x] => x
  | x :: l' => x +:+ "/" +:+ join_slash l'
  end.

(** ** Paths ([path] and [path/filepath] on a Unix host) *)

Definition is_rooted (s : string) : bool := has_prefix "/" s.

(** One element of [path.Clean]'s left-to-right scan: empty and ["."]
    elements vanish, [".."] removes the preceding element (unless that is
    itself [".."]), is dropped at the root of a rooted path, and is kept at
    the start of a relative one.  The stack holds the kept elements, last
    one first. *)
Definition clean_step (rooted : bool) (stack : list string) (seg : string)
  : list string :=
  if decide (seg = "") then stack
  else if decide (seg = ".") then stack
  else if decide (seg = "..") then
    match stack with
    | top :: rest => if decide (top = "..") then ".." :: stack else rest
    | [] => if rooted then [] else [".."]
    end
  else seg :: stack.

Definition clean_segs (rooted : bool) (l : list string) : list string :=
  rev (fold_left (clean_step rooted) l []).

Definition render (rooted : bool) (segs : list string) : string :=
  if rooted then "/" +:+ join_slash segs
  else match segs with [] => "." | _ => join_slash segs end.

(** [path.Clean] ([filepath.Clean] on Unix). *)
Definition Clean (s : string) : string :=
  let r := is_rooted s in render r (clean_segs r (split_slash s)).

(** [path.Join] ([filepath.Join] on Unix): empty elements are ignored, the
    result is cleaned, and no non-empty element gives [""]. *)
Definition path_Join (elems : list string) : string :=
  match filter (fun e => e <> "") elems with
  | [] => ""
  | l => Clean (join_slash l)
  end.

(** The prefix of [s] up to and including its last ['/'] ([""] if none). *)
Fixpoint upto_last_slash (s : string) : string :=
  match s with
  | EmptyString => EmptyString
  | String c s' =>
      let r := upto_last_slash s' in
      if decide (r = "") then (if decide (c = slash) then String c "" else "")
      else String c r
  end.

(** [filepath.Dir]: [Clean] of everything up to the last separator. *)
Definition Dir (p : string) : string := Clean (upto_last_slash p).

(** [filepath.ToSlash] and [filepath.FromSlash]: the identity when the
    separator is ['/']. *)
Definition ToSlash (p : string) : string := p.
Definition FromSlash (p : string) : string := p.

(** The elements [filepath.Rel] compares, of a cleaned path: ["."] has
    none, and a rooted path's leading ["/"] is not an element. *)
Definition rel_segs (p : string) : list string :=
  if decide (p = ".") then []
  else match p with
       | String c rest =>
           if decide (c = slash)
           then (if decide (rest = "") then [] else split_slash rest)
           else split_slash p
       | EmptyString => split_slash p
       end.

(** Drop the longest common prefix of the two element lists. *)
Fixpoint strip_common (bs ts : list string) : list string * list string :=
  match bs, ts with
  | b :: bs', t :: ts' =>
      if decide (b = t) then strip_common bs' ts' else (bs, ts)
  | _, _ => (bs, ts)
  end.

(** [filepath.Rel(basepath, targpath)]: after the common leading elements,
    one [".."] for each remaining element of the base, then the remaining
    elements of the target; an error when exactly one of the paths is
    rooted, or when the first remaining base element is [".."]. *)
Definition Rel (basepath targpath : string) : status string :=
  let base := Clean basepath in
  let targ := Clean targpath in
  let err := Fail ("Rel: can't make " +:+ targpath +:+ " relative to " +:+ basepath) in
  if decide (targ = base) then Ret "." else
  if negb (Bool.eqb (is_rooted base) (is_rooted targ)) then err else
  match strip_common (rel_segs base) (rel_segs targ) with
  | ("" :: _, _) => err   (* unreachable: cleaned elements are non-empty *)
  | (".." :: _, _) => err
  | ([], ts) => Ret (join_slash ts)
  | (_ :: bs, ts) =>
      Ret (".." +:+ foldr (fun _ acc => "/.." +:+ acc) "" bs
           +:+ match ts with [] => "" | _ => "/" +:+ join_slash ts end)
  end.

(** ** Data model *)

(** [MapEntryType]: the type of a map key or value. *)
Record MapEntryType := {
  Type_ : string;
  IsExternal : bool
}.

(** [TypeInformation]; [ProtoType] is the [descriptorpb] enum number. *)
Record TypeInformation := {
  FullyQualifiedName : string;
  Package : string;
  File : string;
  PackageIdentifier : string;
  LocalIdentifier : string;
  ProtoType : Z;
  IsMapEntry : bool;
  KeyType : option MapEntryType;
  ValueType : option MapEntryType
}.

(** The [data] package of the generator (not under [src/]). *)
Module Data.

(** [data.Dependency]: one import of a generated file. *)
Record Dependency := {
  ModuleIdentifier : string;
  SourceFile : string
}.

(** Modelled from the spec: [data.File] is not under [src/].  The spec's
    file record holds the generated-output file name, the external type
    names the file depends on, and the dependency list the resolver fills. *)
Record File := {
  TSFileName : string;
  ExternalDependingTypes : list string;
  Dependencies : list Dependency
}.

(** The last path element of [f] with its extension (from the last ['.'] of
    that element on) removed. *)
Definition stem (f : string) : string :=
  let b := default "" (last (split_slash f)) in
  let i := LastIndex b "." in
  if 0 <=? i then String.substring 0 (Z.to_nat i) b else b.

(** Modelled from the spec: [data.GetTSFileName] is not under [src/].  The
    spec computes "the target's generated output file name from its
    declaring file", whose output-format suffix is [".ts"], with [a.proto]
    giving the import [./a]: the declaring file's directory joined with its
    stem followed by [".ts"]. *)
Definition GetTSFileName (fileName : string) : string :=
  path_Join [Dir fileName; stem fileName +:+ ".ts"].

End Data.

(** [Registry]. *)
Record Registry := {
  Types : gmap string TypeInformation;
  FilesToGenerate : gmap string bool;
  TSImportRoot : string;
  TSImportRootAlias : string
}.

(** What the resolver reads from the outside world: [filepath.Glob] (its
    result, or [None] for its only error, [ErrBadPattern]), [os.Getwd]
    (used by [filepath.Abs]), and [data.GetModuleName].  Modelled from the
    spec: [data.GetModuleName] is not under [src/]; the spec only says it is
    derived deterministically from the (package, file) pair, so it is a
    function of the environment. *)
Record Env := {
  glob : string -> option (list string);
  getwd : option string;
  GetModuleName : string -> string -> string
}.

(** The resolver's state: the registry and the analysed files, in the order
    in which the [range] over the Go map [filesData] visits them (Go leaves
    that order unspecified: theorems quantify over all lists). *)
Record State := {
  reg : Registry;
  filesData : list (string * Data.File)
}.

(** ** The resolver *)

Section Resolver.

Variable env : Env.

(** [filepath.Abs]. *)
Definition Abs (p : string) : status string :=
  if is_rooted p then Ret (Clean p)
  else match getwd env with
       | Some wd => Ret (path_Join [wd; p])
       | None => Fail "getwd: no such file or directory"
       end.

Definition wrap_err {A} (ctx : string) (m : status A) : status A :=
  match m with
  | Fail e => Fail (wrapf ctx e)
  | _ => m
  end.

(** [r.IsFileToGenerate(name)]. *)
Definition IsFileToGenerate (r : Registry) (name : string) : bool :=
  match FilesToGenerate r !! name with
  | Some b => b
  | None => false
  end.

(** [r.isExternalDependenciesOutsidePackage(fqTypeName, packageName)]
    (the same body as [isExternalDependencies] of the second copy). *)
Definition isExternalDependenciesOutsidePackage (fqTypeName packageName : string)
  : bool :=
  negb (Index fqTypeName ("." +:+ packageName) =? 0) && (Index fqTypeName "." =? 0).

(** The [sourceFile] computed for a not-yet-seen (package, file) pair,
    before its [".ts"] suffix is removed (registry.go, lines 165-210). *)
Definition source_path (r : Registry) (base : string) (typeInfo : TypeInformation)
  : status string :=
  let target := Data.GetTSFileName (File typeInfo) in
  if negb (IsFileToGenerate r (File typeInfo)) then
    match glob env (path_Join [TSImportRoot r; "**"; File typeInfo]) with
    | None =>
        Fail (wrapf ("error looking up real path for proto file " +:+ File typeInfo)
                    "syntax error in pattern")
    | Some matches =>
        match matches with
        | [] => Crash "runtime error: index out of range [0] with length 0"
        | m0 :: _ =>
            let absoluteTsFileName := Data.GetTSFileName m0 in
            if decide (TSImportRootAlias r <> "") then
              Ret (ReplaceAll absoluteTsFileName (TSImportRoot r) (TSImportRootAlias r))
            else
              absBase ← wrap_err ("error looking up absolute directory with base dir: " +:+ base)
                                 (Abs base);
              wrap_err ("error looking up relative path for source file " +:+ absoluteTsFileName)
                       (Rel (Dir absBase) absoluteTsFileName)
        end
    end
  else
    sourceFile ← wrap_err ("error getting relative path between for " +:+ base +:+ ", " +:+ target)
                          (Rel (Dir base) target);
    let slashSourceFile := ToSlash sourceFile in
    let slashSourceFile :=
      if negb (Index slashSourceFile "../" =? 0) then "./" +:+ slashSourceFile
      else slashSourceFile in
    Ret (FromSlash slashSourceFile).

(** The [Dependency] record for a not-yet-seen pair: the suffix removal of
    lines 212-214 ([sourceFile[0:strings.LastIndex(sourceFile, ".ts")]]). *)
Definition resolve_dependency (r : Registry) (base : string) (typeInfo : TypeInformation)
  : status Data.Dependency :=
  sourceFile ← source_path r base typeInfo;
  let suffixIndex := LastIndex sourceFile ".ts" in
  sourceFile ← slice_to sourceFile suffixIndex;
  Ret {| Data.ModuleIdentifier := GetModuleName env (Package typeInfo) (File typeInfo);
         Data.SourceFile := sourceFile |}.

(** The key of the [dependencies] map. *)
Definition identifier_of (typeInfo : TypeInformation) : string :=
  Package typeInfo +:+ "|" +:+ File typeInfo.

(** The inner loop over [fileData.ExternalDependingTypes]. *)
Fixpoint collect_types (r : Registry) (base : string)
    (dependencies : gmap string Data.Dependency) (typeNames : list string)
  : status (gmap string Data.Dependency) :=
  match typeNames with
  | [] => Ret dependencies
  | typeName :: rest =>
      match Types r !! typeName with
      | None => Fail ("cannot find type info for " +:+ typeName +:+ ", $v")
      | Some typeInfo =>
          let identifier := identifier_of typeInfo in
          match dependencies !! identifier with
          | Some _ => collect_types r base dependencies rest
          | None =>
              d ← resolve_dependency r base typeInfo;
              collect_types r base (<[identifier := d]> dependencies) rest
          end
      end
  end.

(** The dependencies one file receives; the [range] over the Go map
    [dependencies] has an unspecified order, taken here as [map_to_list]'s. *)
Definition collect_file (r : Registry) (fileData : Data.File)
  : status (list Data.Dependency) :=
  dependencies ← collect_types r (Data.TSFileName fileData) ∅
                               (Data.ExternalDependingTypes fileData);
  Ret (map snd (map_to_list dependencies)).

Definition append_dependencies (f : Data.File) (ds : list Data.Dependency) : Data.File :=
  {| Data.TSFileName := Data.TSFileName f;
     Data.ExternalDependingTypes := Data.ExternalDependingTypes f;
     Data.Dependencies := Data.Dependencies f ++ ds |}.

(** The outer loop: each file's dependencies are appended in place once its
    inner loop is done; the first error (or panic) stops the loop, leaving
    the files already visited updated. *)
Fixpoint collect_files (r : Registry) (files : list (string * Data.File))
  : status unit * list (string * Data.File) :=
  match files with
  | [] => (Ret tt, [])
  | (name, fileData) :: rest =>
      match collect_file r fileData with
      | Ret ds =>
          let '(res, rest') := collect_files r rest in
          (res, (name, append_dependencies fileData ds) :: rest')
      | Fail e => (Fail e, files)
      | Crash e => (Crash e, files)
      end
  end.

(** [r.collectExternalDependenciesFromData(filesData)]. *)
Definition collectExternalDependenciesFromData (st : State) : status unit * State :=
  let '(res, files') := collect_files (reg st) (filesData st) in
  (res, {| reg := reg st; filesData := files' |}).

End Resolver.

(** ** Registry construction (registry.go, lines 14-19 and 37-74) *)

Definition TSImportRootParamsKey : string := "ts_import_root".
Definition TSImportRootAliasParamsKey : string := "ts_import_root_alias".

(** [getTSImportRootInformation(paramsMap)]; [path.IsAbs] is [is_rooted]. *)
Definition getTSImportRootInformation (env : Env) (paramsMap : gmap string string)
  : status (string * string) :=
  let tsImportRoot :=
    match paramsMap !! TSImportRootParamsKey with Some v => v | None => "." end in
  tsImportRoot ←
    (if negb (is_rooted tsImportRoot) then
       wrap_err ("error turning path " +:+ tsImportRoot +:+ " into absolute path")
                (Abs env tsImportRoot)
     else Ret tsImportRoot);
  let tsImportRootAlias :=
    match paramsMap !! TSImportRootAliasParamsKey with Some v => v | None => "" end in
  Ret (tsImportRoot, tsImportRootAlias).

(** [NewRegistry(paramsMap)]: [FilesToGenerate] is left nil, which reads as
    the empty map. *)
Definition NewRegistry (env : Env) (paramsMap : gmap string string) : status Registry :=
  info ← wrap_err "error getting common import root information"
                  (getTSImportRootInformation env paramsMap);
  Ret {| Types := ∅; FilesToGenerate := ∅;
         TSImportRoot := info.1; TSImportRootAlias := info.2 |}.

(** ** Identifier helpers (registry.go, lines 130-141) *)

(** [strings.Join(elems, sep)]. *)
Fixpoint strings_Join (elems : list string) (sep : string) : string :=
  match elems with
  | [] => ""
  | [e] => e
  | e :: rest => e +:+ sep +:+ strings_Join rest sep
  end.

(** [r.getNameOfPackageLevelIdentifier(parents, name)]. *)
Definition getNameOfPackageLevelIdentifier (parents : list string) (name : string) : string :=
  strings_Join parents "" +:+ name.

(** [r.getParentPrefixes(parents)]. *)
Definition getParentPrefixes (parents : list string) : string :=
  if Nat.ltb 0 (length parents) then strings_Join parents "." +:+ "." else "".

(** ** The earlier resolver (src/unnamed/part_000)

    The registry holds only [Types]; the stored [SourceFile] is
    [filepath.Rel(base, target)] itself, taken from the importing file's
    name (not its directory), with no [./] prefix and no suffix removal. *)
Module Legacy.

(** [Registry]. *)
Record Registry := {
  Types : gmap string TypeInformation
}.

(** [NewRegistry()]. *)
Definition NewRegistry : Registry := {| Types := ∅ |}.

(** [r.isExternalDependencies(fqTypeName, packageName)]. *)
Definition isExternalDependencies (fqTypeName packageName : string) : bool :=
  negb (Index fqTypeName ("." +:+ packageName) =? 0) && (Index fqTypeName "." =? 0).

Section LegacyResolver.

Variable env : Env.

(** The dependency built for a not-yet-seen (package, file) pair
    (part_000, lines 117-126). *)
Definition resolve_dependency (base : string) (typeInfo : TypeInformation)
  : status Data.Dependency :=
  let target := Data.GetTSFileName (File typeInfo) in
  relPath ← wrap_err ("error getting relative path between for " +:+ base +:+ ", " +:+ target)
                     (Rel base target);
  Ret {| Data.ModuleIdentifier := GetModuleName env (Package typeInfo) (File typeInfo);
         Data.SourceFile := relPath |}.

(** The inner loop over [fileData.ExternalDependingTypes]. *)
Fixpoint collect_types (r : Registry) (base : string)
    (dependencies : gmap string Data.Dependency) (typeNames : list string)
  : status (gmap string Data.Dependency) :=
  match typeNames with
  | [] => Ret dependencies
  | typeName :: rest =>
      match Types r !! typeName with
      | None => Fail ("cannot find type info for " +:+ typeName +:+ ", $v")
      | Some typeInfo =>
          let identifier := identifier_of typeInfo in
          match dependencies !! identifier with
          | Some _ => collect_types r base dependencies rest
          | None =>
              d ← resolve_dependency base typeInfo;
              collect_types r base (<[identifier := d]> dependencies) rest
          end
      end
  end.

Definition collect_file (r : Registry) (fileData : Data.File)
  : status (list Data.Dependency) :=
  dependencies ← collect_types r (Data.TSFileName fileData) ∅
                               (Data.ExternalDependingTypes fileData);
  Ret (map snd (map_to_list dependencies)).

Fixpoint collect_files (r : Registry) (files : list (string * Data.File))
  : status unit * list (string * Data.File) :=
  match files with
  | [] => (Ret tt, [])
  | (name, fileData) :: rest =>
      match collect_file r fileData with
      | Ret ds =>
          let '(res, rest') := collect_files r rest in
          (res, (name, append_dependencies fileData ds) :: rest')
      | Fail e => (Fail e, files)
      | Crash e => (Crash e, files)
      end
  end.

(** [r.collectExternalDependenciesFromData(filesData)]. *)
Definition collectExternalDependenciesFromData (r : Registry) (files : list (string * Data.File))
  : status unit * (Registry * list (string * Data.File)) :=
  let '(res, files') := collect_files r files in (res, (r, files')).

End LegacyResolver.

End Legacy.

(** ** A concrete request: the spec's end-to-end scenario

    [a.proto] (package [p1]) declares [Foo]; [b.proto] (package [p2])
    references [.p1.Foo]; both are generated in this run. *)

Definition ex_Foo : TypeInformation :=
  {| FullyQualifiedName := ".p1.Foo"; Package := "p1"; File := "a.proto";
     PackageIdentifier := "Foo"; LocalIdentifier := "Foo"; ProtoType := 11;
     IsMapEntry := false; KeyType := None; ValueType := None |}.

Definition ex_reg : Registry :=
  {| Types := {[ ".p1.Foo" := ex_Foo ]};
     FilesToGenerate := {[ "a.proto" := true; "b.proto" := true ]};
     TSImportRoot := "/abs/root"; TSImportRootAlias := "" |}.

Definition ex_env : Env :=
  {| glob := fun _ => Some []; getwd := Some "/w";
     GetModuleName := fun pkg file => pkg +:+ "_" +:+ Data.stem file |}.

Definition ex_b : Data.File :=
  {| Data.TSFileName := Data.GetTSFileName "b.proto";
     Data.ExternalDependingTypes := [".p1.Foo"]; Data.Dependencies := [] |}.

Definition ex_state : State := {| reg := ex_reg; filesData := [("b.proto", ex_b)] |}.

(** Several names sharing a pair: [d.proto] references [.p1.Foo] twice and
    [.p1.Bar], both declared in [a.proto] of package [p1], and [.p2.Baz]
    from [c.proto]: four names, two (package, file) pairs. *)

Definition ex_Bar : TypeInformation :=
  {| FullyQualifiedName := ".p1.Bar"; Package := "p1"; File := "a.proto";
     PackageIdentifier := "Bar"; LocalIdentifier := "Bar"; ProtoType := 14;
     IsMapEntry := false; KeyType := None; ValueType := None |}.

Definition ex_Baz : TypeInformation :=
  {| FullyQualifiedName := ".p2.Baz"; Package := "p2"; File := "c.proto";
     PackageIdentifier := "Baz"; LocalIdentifier := "Baz"; ProtoType := 11;
     IsMapEntry := false; KeyType := None; ValueType := None |}.

Definition ex_reg_shared : Registry :=
  {| Types := {[ ".p1.Foo" := ex_Foo; ".p1.Bar" := ex_Bar; ".p2.Baz" := ex_Baz ]};
     FilesToGenerate := {[ "a.proto" := true; "b.proto" := true;
                           "c.proto" := true; "d.proto" := true ]};
     TSImportRoot := "/abs/root"; TSImportRootAlias := "" |}.

Definition ex_d : Data.File :=
  {| Data.TSFileName := Data.GetTSFileName "d.proto";
     Data.ExternalDependingTypes := [".p1.Foo"; ".p1.Bar"; ".p2.Baz"; ".p1.Foo"];
     Data.Dependencies := [] |}.

Definition ex_state_shared : State :=
  {| reg := ex_reg_shared; filesData := [("d.proto", ex_d); ("b.proto", ex_b)] |}.

(** The same files with [a.proto] only imported (not generated in this run),
    its generated output looked up under the import root [/r], once with no
    file found and once found at [/r/r/a.proto] with the alias [@gen]. *)

Definition ex_reg_imported (root alias : string) : Registry :=
  {| Types := {[ ".p1.Foo" := ex_Foo ]};
     FilesToGenerate := {[ "b.proto" := true ]};
     TSImportRoot := root; TSImportRootAlias := alias |}.

(** An environment whose glob finds [a.proto] at [/abs/root/sub/a.proto]. *)
Definition ex_env_sub : Env :=
  {| glob := fun _ => Some ["/abs/root/sub/a.proto"]; getwd := Some "/w";
     GetModuleName := fun pkg file => pkg +:+ "_" +:+ Data.stem file |}.

Definition ex_env_found : Env :=
  {| glob := fun pattern =>
       if decide (pattern = "/r/**/a.proto") then Some ["/r/r/a.proto"] else Some [];
     getwd := Some "/w";
     GetModuleName := fun pkg file => pkg +:+ "_" +:+ Data.stem file |}.

(** An imported file whose name is not a valid glob pattern, so that
    [filepath.Glob] returns [ErrBadPattern]. *)

Definition ex_Bad : TypeInformation :=
  {| FullyQualifiedName := ".p3.Bad"; Package := "p3"; File := "[a.proto";
     PackageIdentifier := "Bad"; LocalIdentifier := "Bad"; ProtoType := 11;
     IsMapEntry := false; KeyType := None; ValueType := None |}.

Definition ex_env_bad_pattern : Env :=
  {| glob := fun _ => None; getwd := Some "/w";
     GetModuleName := fun pkg file => pkg +:+ "_" +:+ Data.stem file |}.

Definition ex_state_missing : State :=
  {| reg := {| Types := {[ ".p3.Bad" := ex_Bad ]};
               FilesToGenerate := {[ "b.proto" := true ]};
               TSImportRoot := "/abs/root"; TSImportRootAlias := "" |};
     filesData := [("b.proto",
       {| Data.TSFileName := "b.ts";
          Data.ExternalDependingTypes := [".p3.Bad"; ".p9.Missing"];
          Data.Dependencies := [] |})] |}.

Fixpoint sdrop (n : nat) (s : string) : string :=
  match n, s with
  | O, _ => s
  | S n', String _ s' => sdrop n' s'
  | S _, EmptyString => EmptyString
  end.

(** [sub] occurs in [s]. *)
Definition contains (sub s : string) : Prop :=
  exists pre post, s = pre +:+ sub +:+ post.

(** The key the resolver gives a (package, file) pair. *)
Definition pair_key (pf : string * string) : string := pf.1 +:+ "|" +:+ pf.2.

(** The (package, declaring file) pairs of the registered names among
    [typeNames], in order, with repetitions. *)
Fixpoint pairs_of (types : gmap string TypeInformation) (typeNames : list string)
  : list (string * string) :=
  match typeNames with
  | [] => []
  | t :: rest =>
      match types !! t with
      | Some typeInfo => (Package typeInfo, File typeInfo) :: pairs_of types rest
      | None => pairs_of types rest
      end
  end.

(** ** Sanity checks *)

Example Index_ex2 : Index "a/../b" "../" = 2.
Proof. reflexivity. Qed.

Example ReplaceAll_ex : ReplaceAll "/r/r/a.ts" "/r" "@gen" = "@gen@gen/a.ts".
Proof. reflexivity. Qed.

Example Clean_ex2 : Clean "/../a//b" = "/a/b".
Proof. reflexivity. Qed.

Example Dir_ex : Dir "x/y/b.ts" = "x/y" /\ Dir "b.ts" = "." /\ Dir "/b.ts" = "/".
Proof. repeat split; reflexivity. Qed.

Example Rel_ex2 : Rel "." "a.ts" = Ret "a.ts".
Proof. reflexivity. Qed.

Example Rel_ex4 : exists e, Rel ".." "a.ts" = Fail e.
Proof. eexists; reflexivity. Qed.

Example Index_ex1 : Index ".pkg2.Foo" ".pkg" = 0.
Proof. reflexivity. Qed.

Example LastIndex_ex : LastIndex "./a.ts.ts" ".ts" = 6.
Proof. reflexivity. Qed.

Example split_ex : split_slash "/a//b" = [""; "a"; ""; "b"].
Proof. reflexivity. Qed.

Example Clean_ex1 : Clean "a/./b/../../../c/" = "../c".
Proof. reflexivity. Qed.

Example Clean_ex3 : Clean "" = ".".
Proof. reflexivity. Qed.

Example Rel_ex1 : Rel "a/b" "a/c/d.ts" = Ret "../c/d.ts".
Proof. reflexivity. Qed.

Example Rel_ex3 : Rel "/" "/a" = Ret "a" /\ Rel "/a" "/" = Ret "..".
Proof. split; reflexivity. Qed.

Example end_to_end :
  collectExternalDependenciesFromData ex_env ex_state =
  (Ret tt, {| reg := ex_reg;
              filesData := [("b.proto",
                {| Data.TSFileName := "b.ts"; Data.ExternalDependingTypes := [".p1.Foo"];
                   Data.Dependencies := [{| Data.ModuleIdentifier := "p1_a";
                                           Data.SourceFile := "./a" |}] |})] |}).
Proof. vm_compute. reflexivity. Qed.

(** * Properties *)

(** ** Strings *)

Lemma slength_app (a b : string) :
  String.length (a +:+ b) = (String.length a + String.length b)%nat.
Proof. induction a; simpl; auto. Qed.

Lemma has_prefix_app (p s : string) : has_prefix p (p +:+ s) = true.
Proof. induction p; simpl; [reflexivity|]. rewrite decide_True by reflexivity. exact IHp. Qed.

Lemma has_prefix_spec (p s : string) :
  has_prefix p s = true <-> exists rest, s = p +:+ rest.
Proof.
  split.
  - revert s; induction p as [|c p IH]; intros s H; simpl in *.
    + eauto.
    + destruct s as [|d s]; [discriminate|].
      destruct (decide (c = d)); [subst|discriminate].
      destruct (IH s H) as [rest ->]. eauto.
  - intros [rest ->]. apply has_prefix_app.
Qed.

Lemma has_prefix_length (p s : string) :
  has_prefix p s = true -> (String.length p <= String.length s)%nat.
Proof.
  intros H. apply has_prefix_spec in H as [rest ->].
  rewrite slength_app. lia.
Qed.

Lemma sdrop_length (n : nat) (s : string) :
  String.length (sdrop n s) = (String.length s - n)%nat.
Proof.
  revert s; induction n; intros [|c s]; simpl; auto.
Qed.

Lemma sdrop_app (pre post : string) :
  sdrop (String.length pre) (pre +:+ post) = post.
Proof. induction pre; simpl; auto. Qed.

Lemma Index_ge (s sub : string) : -1 <= Index s sub.
Proof.
  induction s; simpl; destruct (has_prefix sub _); try lia.
  destruct (Index s sub <? 0) eqn:E; lia.
Qed.

(** [strings.Index(s, sub) == 0] is [strings.HasPrefix(s, sub)]. *)
Lemma Index_zero (s sub : string) : Index s sub = 0 <-> has_prefix sub s = true.
Proof.
  destruct s as [|c s]; simpl; destruct (has_prefix sub _) eqn:E;
    split; intros H; auto; try discriminate.
  pose proof (Index_ge s sub). destruct (Index s sub <? 0) eqn:F; lia.
Qed.

(** [strings.LastIndex]: -1 when there is no occurrence, otherwise the
    position of an occurrence after which none starts. *)
Lemma LastIndex_spec (s sub : string) :
  (LastIndex s sub = -1 /\
     forall j, (j <= String.length s)%nat -> has_prefix sub (sdrop j s) = false)
  \/ (exists i, LastIndex s sub = Z.of_nat i /\ (i <= String.length s)%nat /\
        has_prefix sub (sdrop i s) = true /\
        forall j, (i < j <= String.length s)%nat -> has_prefix sub (sdrop j s) = false).
Proof.
  induction s as [|c s IH]; simpl.
  - destruct (has_prefix sub "") eqn:E.
    + right. exists O. repeat split; auto; lia.
    + left. split; [reflexivity|]. intros j Hj. replace j with O by lia. exact E.
  - destruct IH as [[H1 H2]|[i [H1 [H2 [H3 H4]]]]].
    + rewrite H1. simpl.
      destruct (has_prefix sub (String c s)) eqn:E.
      * right. exists O. repeat split; auto; try lia.
        intros [|j] Hj; [lia|]. simpl. apply H2. lia.
      * left. split; [reflexivity|].
        intros [|j] Hj; simpl; [exact E|]. apply H2. lia.
    + rewrite H1. right. exists (S i).
      replace (0 <=? Z.of_nat i) with true by (symmetry; apply Z.leb_le; lia).
      repeat split; auto; try lia.
      intros [|j] Hj; [lia|]. simpl. apply H4. lia.
Qed.

Lemma has_prefix_substring (p s : string) (i : nat) :
  has_prefix p s = true -> (String.length p <= i)%nat ->
  has_prefix p (String.substring 0 i s) = true.
Proof.
  revert s i; induction p as [|c p IH]; intros s i H Hi; simpl in *; auto.
  destruct s as [|d s]; [discriminate|].
  destruct (decide (c = d)); [subst|discriminate].
  destruct i as [|i]; [lia|]. simpl.
  rewrite decide_True by reflexivity. apply IH; auto. lia.
Qed.

Lemma substring_app (pre post : string) :
  String.substring 0 (String.length pre) (pre +:+ post) = pre.
Proof. induction pre; simpl; [destruct post|]; f_equal; auto. Qed.

(** The suffix removal on a path ending in [".ts"]. *)
Lemma LastIndex_ts_suffix (q : string) :
  LastIndex (q +:+ ".ts") ".ts" = Z.of_nat (String.length q).
Proof.
  destruct (LastIndex_spec (q +:+ ".ts") ".ts") as [[_ H]|[i [H1 [H2 [H3 H4]]]]].
  - exfalso. rewrite slength_app in H.
    specialize (H (String.length q) ltac:(lia)). rewrite sdrop_app in H. discriminate.
  - rewrite H1. f_equal.
    rewrite slength_app in H2, H4. simpl in H2, H4.
    destruct (Nat.lt_total i (String.length q)) as [Hlt|[Heq|Hgt]]; auto.
    + specialize (H4 (String.length q) ltac:(lia)). rewrite sdrop_app in H4. discriminate.
    + apply has_prefix_length in H3. rewrite sdrop_length, slength_app in H3.
      simpl in H3. lia.
Qed.

Lemma substring_sdrop (j : nat) (s : string) :
  String.substring 0 j s +:+ sdrop j s = s.
Proof.
  revert s; induction j as [|j IH]; intros [|c s]; simpl; try reflexivity.
  change (String c (String.substring 0 j s +:+ sdrop j s) = String c s).
  rewrite IH. reflexivity.
Qed.

Lemma contains_sdrop (sub s : string) :
  contains sub s <->
  exists j, (j <= String.length s)%nat /\ has_prefix sub (sdrop j s) = true.
Proof.
  split.
  - intros (pre & post & ->). exists (String.length pre). split.
    + rewrite slength_app. lia.
    + rewrite sdrop_app. apply has_prefix_app.
  - intros (j & _ & H). apply has_prefix_spec in H as [rest Hr].
    exists (String.substring 0 j s), rest.
    rewrite <- Hr. symmetry. apply substring_sdrop.
Qed.

Lemma slice_to_in_range (s : string) (i : nat) :
  (i <= String.length s)%nat -> slice_to s (Z.of_nat i) = Ret (String.substring 0 i s).
Proof.
  intros H. unfold slice_to.
  replace ((0 <=? Z.of_nat i) && (Z.of_nat i <=? Z.of_nat (String.length s))) with true
    by (symmetry; apply andb_true_intro; split; apply Z.leb_le; lia).
  rewrite Nat2Z.id. reflexivity.
Qed.

(** ** Externality (claim C1) *)

(** C1 (code_bug): the externality predicate compares the type name with
    ["." ++ packageName] without requiring a ['.'] after the package name,
    so a type of package [pkg2] counts as internal to package [pkg]:
    [isExternal(".pkg2.Foo", "pkg")] is [false], as is
    [isExternal(".pkg.Foo", "pkg")]. *)
Theorem isExternal_prefix_package :
  isExternalDependenciesOutsidePackage ".pkg2.Foo" "pkg" = false /\
  isExternalDependenciesOutsidePackage ".pkg.Foo" "pkg" = false.
Proof. split; reflexivity. Qed.

(** ** Glob with no match (claim C3) *)

(** C3 (code_bug): when the glob search for an imported file finds nothing,
    the resolver indexes [matches[0]] and panics (index out of range)
    instead of returning an error wrapped with the current and target file
    names; the files are left as they were. *)
Theorem glob_no_match_panics :
  let st := {| reg := ex_reg_imported "/abs/root" ""; filesData := [("b.proto", ex_b)] |} in
  collectExternalDependenciesFromData ex_env st =
  (Crash "runtime error: index out of range [0] with length 0", st).
Proof. vm_compute. reflexivity. Qed.

(** ** Alias substitution (claim C6) *)

(** C6 (code_bug): with import root [/r] and alias [@gen], the output
    [/r/r/a.ts] found for [a.proto] gives the import [@gen@gen/a] (every
    occurrence of the root is replaced), not [@gen/r/a] (the root prefix
    replaced by the alias). *)
Theorem alias_replaces_every_occurrence :
  Data.GetTSFileName "/r/r/a.proto" = "/r/r/a.ts" /\
  resolve_dependency ex_env_found (ex_reg_imported "/r" "@gen") "b.ts" ex_Foo =
    Ret {| Data.ModuleIdentifier := "p1_a"; Data.SourceFile := "@gen@gen/a" |} /\
  "@gen@gen/a" <> "@gen/r/a".
Proof. split; [|split]; [vm_compute; reflexivity | vm_compute; reflexivity | discriminate]. Qed.

(** ** Suffix removal (claims C7 and C10) *)

Lemma resolve_dependency_slice env r base typeInfo p :
  source_path env r base typeInfo = Ret p ->
  resolve_dependency env r base typeInfo =
    match slice_to p (LastIndex p ".ts") with
    | Ret q => Ret {| Data.ModuleIdentifier := GetModuleName env (Package typeInfo) (File typeInfo);
                      Data.SourceFile := q |}
    | Fail e => Fail e
    | Crash e => Crash e
    end.
Proof. intros H. unfold resolve_dependency. rewrite H. reflexivity. Qed.

(** C7: on every branch, a computed path [q ++ ".ts"] is stored as [q]. *)
Theorem resolve_dependency_strips_ts env r base typeInfo q :
  source_path env r base typeInfo = Ret (q +:+ ".ts") ->
  resolve_dependency env r base typeInfo =
    Ret {| Data.ModuleIdentifier := GetModuleName env (Package typeInfo) (File typeInfo);
           Data.SourceFile := q |}.
Proof.
  intros H. rewrite (resolve_dependency_slice _ _ _ _ _ H), LastIndex_ts_suffix.
  rewrite slice_to_in_range by (rewrite slength_app; lia).
  rewrite substring_app. reflexivity.
Qed.

Lemma resolve_dependency_strips_ts_witness :
  source_path ex_env ex_reg "b.ts" ex_Foo = Ret ("./a" +:+ ".ts") /\
  resolve_dependency ex_env ex_reg "b.ts" ex_Foo =
    Ret {| Data.ModuleIdentifier := "p1_a"; Data.SourceFile := "./a" |}.
Proof.
  split; [vm_compute; reflexivity|].
  apply (resolve_dependency_strips_ts ex_env ex_reg "b.ts" ex_Foo "./a").
  vm_compute. reflexivity.
Defined.

(** C10: the suffix removal [sourceFile[0:strings.LastIndex(sourceFile, ".ts")]]
    panics (slice [0:-1]) exactly when the computed path does not contain
    [".ts"]; when it does, the slice is in range and a dependency is
    produced. *)
Theorem resolve_dependency_missing_ts env r base typeInfo p :
  source_path env r base typeInfo = Ret p ->
  (~ contains ".ts" p ->
     resolve_dependency env r base typeInfo =
       Crash "runtime error: slice bounds out of range") /\
  (contains ".ts" p ->
     exists q, resolve_dependency env r base typeInfo =
       Ret {| Data.ModuleIdentifier := GetModuleName env (Package typeInfo) (File typeInfo);
              Data.SourceFile := q |}).
Proof.
  intros H. rewrite (resolve_dependency_slice _ _ _ _ _ H).
  destruct (LastIndex_spec p ".ts") as [[H1 H2]|[i [H1 [H2 [H3 H4]]]]].
  - split.
    + intros _. rewrite H1. reflexivity.
    + intros Hc. apply contains_sdrop in Hc as (j & Hj & Hp).
      rewrite H2 in Hp by exact Hj. discriminate.
  - split.
    + intros Hn. exfalso. apply Hn, contains_sdrop. eauto.
    + intros _. rewrite H1, slice_to_in_range by exact H2. eauto.
Qed.

Lemma resolve_dependency_missing_ts_witness :
  source_path ex_env_found (ex_reg_imported "/r" "@gen") "b.ts" ex_Foo = Ret "@gen@gen/a.ts" /\
  exists q, resolve_dependency ex_env_found (ex_reg_imported "/r" "@gen") "b.ts" ex_Foo =
    Ret {| Data.ModuleIdentifier := "p1_a"; Data.SourceFile := q |}.
Proof.
  split; [vm_compute; reflexivity|].
  apply (resolve_dependency_missing_ts ex_env_found (ex_reg_imported "/r" "@gen") "b.ts"
           ex_Foo "@gen@gen/a.ts"); [vm_compute; reflexivity|].
  exists "@gen@gen/a", "". reflexivity.
Defined.

(** ** In-run import paths (claims C4 and C5) *)

(** C5: for a target generated in this run, the computed path is
    [filepath.Rel(filepath.Dir(base), target)] in forward-slash form,
    prefixed with ["./"] unless it already starts with ["../"]; every import
    specifier stored for such a target starts with ["./"] or ["../"]. *)
Theorem in_run_import_path env r base typeInfo p :
  IsFileToGenerate r (File typeInfo) = true ->
  source_path env r base typeInfo = Ret p ->
  (exists R, Rel (Dir base) (Data.GetTSFileName (File typeInfo)) = Ret R /\
     p = FromSlash (if has_prefix "../" (ToSlash R) then ToSlash R else "./" +:+ ToSlash R)) /\
  (forall d, resolve_dependency env r base typeInfo = Ret d ->
     has_prefix "./" (Data.SourceFile d) = true \/ has_prefix "../" (Data.SourceFile d) = true).
Proof.
  intros Hgen Hp.
  assert (Hpath : exists R, Rel (Dir base) (Data.GetTSFileName (File typeInfo)) = Ret R /\
     p = FromSlash (if has_prefix "../" (ToSlash R) then ToSlash R else "./" +:+ ToSlash R)).
  { unfold source_path in Hp. rewrite Hgen in Hp. simpl in Hp.
    destruct (Rel (Dir base) (Data.GetTSFileName (File typeInfo))) as [R|e|e] eqn:E;
      simpl in Hp; try discriminate.
    exists R. split; [reflexivity|]. injection Hp as <-.
    unfold ToSlash, FromSlash.
    destruct (has_prefix "../" R) eqn:Hd.
    - apply Index_zero in Hd. rewrite Hd. reflexivity.
    - destruct (Index R "../" =? 0) eqn:Hi; [|reflexivity].
      apply Z.eqb_eq, Index_zero in Hi. congruence. }
  split; [exact Hpath|].
  intros d Hd. rewrite (resolve_dependency_slice _ _ _ _ _ Hp) in Hd.
  destruct (LastIndex_spec p ".ts") as [[H1 _]|[i [H1 [H2 [H3 _]]]]].
  { rewrite H1 in Hd. discriminate. }
  rewrite H1, slice_to_in_range in Hd by exact H2.
  injection Hd as <-. cbn [Data.SourceFile].
  destruct Hpath as (R & _ & ->). unfold ToSlash, FromSlash in *.
  destruct (has_prefix "../" R) eqn:Hdd.
  - right. apply has_prefix_substring; [exact Hdd|].
    apply has_prefix_spec in Hdd as [rest ->].
    destruct i as [|[|[|i]]]; simpl in H3; try discriminate. simpl. lia.
  - left. apply has_prefix_substring; [apply has_prefix_app|].
    destruct i as [|[|i]]; simpl in H3; try discriminate. simpl. lia.
Qed.

Lemma in_run_import_path_witness :
  IsFileToGenerate ex_reg (File ex_Foo) = true /\
  source_path ex_env ex_reg "b.ts" ex_Foo = Ret "./a.ts" /\
  (exists R, Rel (Dir "b.ts") (Data.GetTSFileName (File ex_Foo)) = Ret R /\
     "./a.ts" = FromSlash (if has_prefix "../" (ToSlash R) then ToSlash R else "./" +:+ ToSlash R)).
Proof.
  split; [reflexivity|]. split; [vm_compute; reflexivity|].
  apply (in_run_import_path ex_env ex_reg "b.ts" ex_Foo "./a.ts");
    [reflexivity | vm_compute; reflexivity].
Defined.

(** ** The outer loop *)

Lemma Forall2_refl_on {A} (P : A -> A -> Prop) (l : list A) :
  (forall x, P x x) -> Forall2 P l l.
Proof. intros HP. induction l; constructor; auto. Qed.

Lemma collect_files_cons env r name f rest :
  collect_files env r ((name, f) :: rest) =
  match collect_file env r f with
  | Ret ds => let '(res, rest') := collect_files env r rest in
              (res, (name, append_dependencies f ds) :: rest')
  | Fail e => (Fail e, (name, f) :: rest)
  | Crash e => (Crash e, (name, f) :: rest)
  end.
Proof. reflexivity. Qed.

(** Whatever its outcome, the outer loop only appends to the [Dependencies]
    of the files. *)
Lemma collect_files_frame env r (files : list (string * Data.File)) :
  Forall2 (fun '(k, f) '(k', f') =>
             k' = k /\ exists ds, f' = append_dependencies f ds)
          files (snd (collect_files env r files)).
Proof.
  induction files as [|[name f] rest IH]; [constructor|].
  rewrite collect_files_cons.
  destruct (collect_file env r f) as [ds|e|e].
  - destruct (collect_files env r rest) as [res rest'] eqn:E. simpl in *.
    constructor; [split; eauto | exact IH].
  - apply Forall2_refl_on. intros [k g]. split; [reflexivity|].
    exists []. destruct g; unfold append_dependencies; simpl. rewrite app_nil_r. reflexivity.
  - apply Forall2_refl_on. intros [k g]. split; [reflexivity|].
    exists []. destruct g; unfold append_dependencies; simpl. rewrite app_nil_r. reflexivity.
Qed.

(** ** Frame (claim C9) *)

(** C9: the resolver leaves the registry (its [Types] map with every
    [TypeInformation] entry, and the rest of it) unchanged, and changes each
    file only by appending to its [Dependencies]: the file names, the
    output names and the external type names stay as they were.  This
    holds whatever the outcome (success, error or panic). *)
Theorem collect_frame env (st : State) :
  let '(_, st') := collectExternalDependenciesFromData env st in
  reg st' = reg st /\ Types (reg st') = Types (reg st) /\
  Forall2 (fun '(k, f) '(k', f') =>
             k' = k /\ Data.TSFileName f' = Data.TSFileName f /\
             Data.ExternalDependingTypes f' = Data.ExternalDependingTypes f /\
             exists ds, Data.Dependencies f' = Data.Dependencies f ++ ds)
          (filesData st) (filesData st').
Proof.
  unfold collectExternalDependenciesFromData.
  pose proof (collect_files_frame env (reg st) (filesData st)) as H.
  destruct (collect_files env (reg st) (filesData st)) as [res files'].
  simpl in *. split; [reflexivity|]. split; [reflexivity|].
  eapply Forall2_impl; [exact H|].
  intros [k f] [k' f'] [-> [ds ->]]. simpl. eauto 10.
Qed.

(** ** Missing registry entries (claim C8) *)

Lemma contains_LastIndex (sub s : string) : contains sub s <-> 0 <= LastIndex s sub.
Proof.
  rewrite contains_sdrop.
  destruct (LastIndex_spec s sub) as [[H1 H2]|[i [H1 [H2 [H3 _]]]]]; rewrite H1.
  - split; [|lia]. intros (j & Hj & Hp). rewrite H2 in Hp by exact Hj. discriminate.
  - split; [lia|]. eauto.
Qed.

Lemma collect_types_app env r base m pre post :
  collect_types env r base m (pre ++ post) =
  match collect_types env r base m pre with
  | Ret m' => collect_types env r base m' post
  | Fail e => Fail e
  | Crash e => Crash e
  end.
Proof.
  revert m; induction pre as [|t pre IH]; intros m; simpl; [reflexivity|].
  destruct (Types r !! t) as [typeInfo|]; [|reflexivity].
  destruct (m !! identifier_of typeInfo); [apply IH|].
  destruct (resolve_dependency env r base typeInfo); simpl; [apply IH|reflexivity|reflexivity].
Qed.

Lemma collect_file_missing env r f pre t post :
  Data.ExternalDependingTypes f = pre ++ t :: post -> Types r !! t = None ->
  forall ds, collect_file env r f <> Ret ds.
Proof.
  intros Hl Ht ds. unfold collect_file. rewrite Hl, collect_types_app.
  destruct (collect_types env r (Data.TSFileName f) ∅ pre); simpl; try discriminate.
  rewrite Ht. discriminate.
Qed.

Lemma collect_files_not_ok env r files k f :
  In (k, f) files -> (forall ds, collect_file env r f <> Ret ds) ->
  fst (collect_files env r files) <> Ret tt.
Proof.
  intros Hin Hf. induction files as [|[name g] rest IH]; [destruct Hin|].
  rewrite collect_files_cons.
  destruct (collect_file env r g) as [ds|e|e] eqn:E; simpl; try discriminate.
  destruct Hin as [Heq|Hin].
  - injection Heq as -> ->. exfalso. exact (Hf ds E).
  - specialize (IH Hin). destruct (collect_files env r rest). exact IH.
Qed.

Lemma collect_files_skip_ok env r fs1 rest :
  Forall (fun '(_, g) => exists ds, collect_file env r g = Ret ds) fs1 ->
  fst (collect_files env r (fs1 ++ rest)) = fst (collect_files env r rest).
Proof.
  induction fs1 as [|[name g] fs1 IH]; intros Hok; [reflexivity|].
  inversion Hok as [|? ? Hx Hok']; subst. destruct Hx as [ds Hds].
  simpl app. rewrite collect_files_cons, Hds.
  specialize (IH Hok'). destruct (collect_files env r (fs1 ++ rest)). exact IH.
Qed.

Lemma collect_fst env st :
  fst (collectExternalDependenciesFromData env st) = fst (collect_files env (reg st) (filesData st)).
Proof.
  unfold collectExternalDependenciesFromData.
  destruct (collect_files env (reg st) (filesData st)). reflexivity.
Qed.

(** C8 (as the code has it): when a file references a type name with no
    registry entry and the run does not panic, the resolution returns an
    error.  That error is [cannot find type info for <name>, $v], naming the
    type, when the resolver reaches it first, i.e. when every file visited
    before, and every name before it in its file, resolves without error. *)
Theorem missing_type_fails env st k f pre t post :
  In (k, f) (filesData st) ->
  Data.ExternalDependingTypes f = pre ++ t :: post ->
  Types (reg st) !! t = None ->
  (forall e, fst (collectExternalDependenciesFromData env st) <> Crash e) ->
  (exists msg, fst (collectExternalDependenciesFromData env st) = Fail msg) /\
  (forall fs1 fs2 m,
     filesData st = fs1 ++ (k, f) :: fs2 ->
     Forall (fun '(_, g) => exists ds, collect_file env (reg st) g = Ret ds) fs1 ->
     collect_types env (reg st) (Data.TSFileName f) ∅ pre = Ret m ->
     fst (collectExternalDependenciesFromData env st) =
       Fail ("cannot find type info for " +:+ t +:+ ", $v") /\
     contains t ("cannot find type info for " +:+ t +:+ ", $v")).
Proof.
  intros Hin Hl Ht Hnc. split.
  - assert (Hnot : fst (collectExternalDependenciesFromData env st) <> Ret tt).
    { rewrite collect_fst. eapply collect_files_not_ok; [exact Hin|].
      eapply collect_file_missing; eauto. }
    destruct (fst (collectExternalDependenciesFromData env st)) as [[]|msg|e] eqn:E.
    + exfalso. exact (Hnot eq_refl).
    + exists msg. reflexivity.
    + exfalso. exact (Hnc e eq_refl).
  - rewrite collect_fst. intros fs1 fs2 m Hfs Hok Hpre.
    rewrite Hfs, collect_files_skip_ok by exact Hok.
    split; [|exists "cannot find type info for ", ", $v"; reflexivity].
    rewrite collect_files_cons.
    unfold collect_file. rewrite Hl, collect_types_app, Hpre. simpl. rewrite Ht.
    reflexivity.
Qed.

(** [b.proto] references the imported [.p3.Bad], which the glob of
    [ex_env_sub] finds, and then the unknown [.p9.Missing]: the run reaches
    [.p9.Missing] and reports it. *)
Lemma missing_type_fails_witness :
  (forall e, fst (collectExternalDependenciesFromData ex_env_sub ex_state_missing) <> Crash e) /\
  (exists msg, fst (collectExternalDependenciesFromData ex_env_sub ex_state_missing) = Fail msg) /\
  fst (collectExternalDependenciesFromData ex_env_sub ex_state_missing) =
    Fail ("cannot find type info for " +:+ ".p9.Missing" +:+ ", $v") /\
  contains ".p9.Missing" ("cannot find type info for " +:+ ".p9.Missing" +:+ ", $v").
Proof.
  assert (Hnc : forall e,
    fst (collectExternalDependenciesFromData ex_env_sub ex_state_missing) <> Crash e).
  { intros e. vm_compute. discriminate. }
  destruct (missing_type_fails ex_env_sub ex_state_missing "b.proto"
              (snd (hd ("", ex_b) (filesData ex_state_missing))) [".p3.Bad"] ".p9.Missing" []
              (or_introl eq_refl) eq_refl (eq_refl : _ = None) Hnc) as [H1 H2].
  split; [exact Hnc|]. split; [exact H1|].
  apply (H2 [] []
           (match collect_types ex_env_sub (reg ex_state_missing) "b.ts" ∅ [".p3.Bad"] with
            | Ret m => m | _ => ∅ end)).
  - reflexivity.
  - constructor.
  - vm_compute. reflexivity.
Defined.

(** C8 as stated fails: [b.proto] references the unknown [.p9.Missing], but
    the imported [.p3.Bad] before it fails first (its file name is not a
    valid glob pattern), and the returned error does not name
    [.p9.Missing]. *)
Lemma missing_type_other_error_first :
  In ".p9.Missing" (Data.ExternalDependingTypes (snd (hd ("", ex_b) (filesData ex_state_missing)))) /\
  Types (reg ex_state_missing) !! ".p9.Missing" = None /\
  exists msg,
    fst (collectExternalDependenciesFromData ex_env_bad_pattern ex_state_missing) = Fail msg /\
    ~ contains ".p9.Missing" msg.
Proof.
  split; [right; left; reflexivity|]. split; [vm_compute; reflexivity|].
  eexists. split; [vm_compute; reflexivity|].
  rewrite contains_LastIndex. vm_compute. intros H. apply H. reflexivity.
Qed.

(** ** One import per (package, file) pair (claim C2) *)

Lemma identifier_of_pair_key typeInfo :
  identifier_of typeInfo = pair_key (Package typeInfo, File typeInfo).
Proof. reflexivity. Qed.

Lemma contains_cons (c : ascii) (sub s : string) :
  contains sub s -> contains sub (String c s).
Proof. intros (pre & post & ->). exists (String c pre), post. reflexivity. Qed.

(** A package name without ['|'] makes the key injective. *)
Lemma pair_key_inj (a b a' b' : string) :
  ~ contains "|" a -> ~ contains "|" a' ->
  a +:+ "|" +:+ b = a' +:+ "|" +:+ b' -> a = a' /\ b = b'.
Proof.
  revert a'; induction a as [|c a IH]; intros [|c' a'] Ha Ha' Heq;
    cbn [String.append] in Heq; injection Heq; intros; subst.
  - auto.
  - exfalso. apply Ha'. exists "", a'. reflexivity.
  - exfalso. apply Ha. exists "", a. reflexivity.
  - destruct (IH a') as [-> ->]; auto.
    + intros Hc. apply Ha, contains_cons, Hc.
    + intros Hc. apply Ha', contains_cons, Hc.
Qed.

Lemma collect_types_dom env r base m typeNames m' :
  collect_types env r base m typeNames = Ret m' ->
  dom m' = dom m ∪ list_to_set (map pair_key (pairs_of (Types r) typeNames)).
Proof.
  revert m; induction typeNames as [|t rest IH]; intros m H; simpl in *.
  - injection H as <-. set_solver.
  - destruct (Types r !! t) as [typeInfo|] eqn:Et; [|discriminate].
    simpl. rewrite <- identifier_of_pair_key.
    destruct (m !! identifier_of typeInfo) as [d0|] eqn:Em.
    + rewrite (IH m H).
      assert (identifier_of typeInfo ∈ dom m) by (apply elem_of_dom; eauto).
      set_solver.
    + destruct (resolve_dependency env r base typeInfo) as [d|e|e];
        simpl in H; try discriminate.
      rewrite (IH _ H), dom_insert_L. set_solver.
Qed.

Lemma pairs_of_packages (types : gmap string TypeInformation) typeNames pf :
  In pf (pairs_of types typeNames) ->
  exists t typeInfo, types !! t = Some typeInfo /\ pf = (Package typeInfo, File typeInfo).
Proof.
  induction typeNames as [|t rest IH]; simpl; [tauto|].
  destruct (types !! t) as [typeInfo|] eqn:Et; [|exact IH].
  intros [<-|Hin]; [eauto|auto].
Qed.

Lemma size_keys (l : list (string * string)) :
  (forall pf, In pf l -> ~ contains "|" pf.1) ->
  size (list_to_set (map pair_key l) : gset string) = length (remove_dups l).
Proof.
  induction l as [|x l IH]; intros Hl; [reflexivity|].
  assert (IH' := IH (fun pf H => Hl pf (or_intror H))).
  simpl. case_decide as Hx.
  - rewrite <- IH'. f_equal.
    assert (pair_key x ∈ (list_to_set (map pair_key l) : gset string)).
    { apply elem_of_list_to_set, list_elem_of_In, in_map, list_elem_of_In, Hx. }
    set_solver.
  - rewrite size_union, size_singleton, IH'; [reflexivity|].
    apply disjoint_singleton_l. intros Hk.
    apply elem_of_list_to_set, list_elem_of_In, in_map_iff in Hk as [y [Hy Hin]].
    destruct x as [a b], y as [a' b']. unfold pair_key in Hy; simpl in Hy.
    destruct (pair_key_inj a' b' a b) as [-> ->]; auto.
    + apply (Hl (a', b')). right. exact Hin.
    + apply (Hl (a, b)). left. reflexivity.
    + apply Hx, list_elem_of_In, Hin.
Qed.

Lemma collect_files_ok env r files files' :
  collect_files env r files = (Ret tt, files') ->
  Forall2 (fun '(k, f) '(k', f') =>
             k' = k /\ exists ds, collect_file env r f = Ret ds /\
                                  f' = append_dependencies f ds)
          files files'.
Proof.
  revert files'; induction files as [|[name f] rest IH]; intros files' H.
  - injection H as <-. constructor.
  - rewrite collect_files_cons in H.
    destruct (collect_file env r f) as [ds|e|e] eqn:E; try discriminate.
    destruct (collect_files env r rest) as [res rest'] eqn:E2.
    injection H as -> <-. constructor; [split; eauto|]. apply IH. reflexivity.
Qed.

(** C2: when resolution succeeds, every file receives exactly one
    [Dependency] per distinct (package, declaring file) pair among its
    external type names, however many names share a pair.  Protobuf
    package names are dotted identifiers, so they never contain the
    separator ['|'] of the resolver's key. *)
Theorem dependencies_one_per_pair env (st st' : State) :
  (forall t typeInfo, Types (reg st) !! t = Some typeInfo -> ~ contains "|" (Package typeInfo)) ->
  collectExternalDependenciesFromData env st = (Ret tt, st') ->
  Forall2 (fun '(k, f) '(k', f') =>
             k' = k /\ exists ds, f' = append_dependencies f ds /\
               length ds = length (remove_dups (pairs_of (Types (reg st))
                                                 (Data.ExternalDependingTypes f))))
          (filesData st) (filesData st').
Proof.
  intros Hpk H. unfold collectExternalDependenciesFromData in H.
  destruct (collect_files env (reg st) (filesData st)) as [res files'] eqn:E.
  injection H as -> <-. simpl.
  eapply Forall2_impl; [apply collect_files_ok; exact E|].
  intros [k f] [k' f'] [-> [ds [Hds ->]]]. split; [reflexivity|].
  exists ds. split; [reflexivity|].
  unfold collect_file in Hds.
  destruct (collect_types env (reg st) (Data.TSFileName f) ∅ (Data.ExternalDependingTypes f))
    as [m|e|e] eqn:Em; simpl in Hds; try discriminate.
  injection Hds as <-.
  rewrite length_map, length_map_to_list, <- size_dom, (collect_types_dom _ _ _ _ _ _ Em).
  rewrite dom_empty_L, union_empty_l_L.
  apply size_keys. intros pf Hin.
  destruct (pairs_of_packages _ _ _ Hin) as (t & typeInfo & Ht & ->).
  exact (Hpk t typeInfo Ht).
Qed.

Lemma dependencies_one_per_pair_witness :
  length (Data.ExternalDependingTypes ex_d) = 4%nat /\
  length (remove_dups (pairs_of (Types ex_reg_shared) (Data.ExternalDependingTypes ex_d))) = 2%nat /\
  collectExternalDependenciesFromData ex_env ex_state_shared =
    (Ret tt, snd (collectExternalDependenciesFromData ex_env ex_state_shared)) /\
  Forall2 (fun '(k, f) '(k', f') =>
             k' = k /\ exists ds, f' = append_dependencies f ds /\
               length ds = length (remove_dups (pairs_of (Types (reg ex_state_shared))
                                                 (Data.ExternalDependingTypes f))))
          (filesData ex_state_shared)
          (filesData (snd (collectExternalDependenciesFromData ex_env ex_state_shared))).
Proof.
  split; [reflexivity|]. split; [vm_compute; reflexivity|].
  split; [vm_compute; reflexivity|].
  apply (dependencies_one_per_pair ex_env ex_state_shared
           (snd (collectExternalDependenciesFromData ex_env ex_state_shared))).
  - intros t typeInfo Ht. cbn [reg ex_state_shared] in Ht. unfold ex_reg_shared in Ht. cbn [Types] in Ht.
    repeat (apply lookup_insert_Some in Ht as [[_ <-]|[_ Ht]];
            [rewrite contains_LastIndex; vm_compute; intros H; apply H; reflexivity|]).
    apply lookup_singleton_Some in Ht as [_ <-].
    rewrite contains_LastIndex. vm_compute. intros H. apply H. reflexivity.
  - vm_compute. reflexivity.
Defined.

(** ** Path elements *)

Definition slash_free (x : string) : Prop := ~ contains "/" x.

(** The elements of a cleaned path: non-empty, not ["."], without ['/']. *)
Definition seg_ok (x : string) : Prop := x <> "" /\ x <> "." /\ slash_free x.

(** [".."] elements only at the start. *)
Fixpoint dotsfirst (l : list string) : Prop :=
  match l with
  | [] => True
  | x :: l' => (x = ".." /\ dotsfirst l') \/ Forall (fun y => y <> "..") l
  end.

(** The element lists [path.Clean] produces. *)
Definition clean_ok (rooted : bool) (l : list string) : Prop :=
  Forall seg_ok l /\ dotsfirst l /\ (rooted = true -> ~ In ".." l).

Lemma split_slash_nonempty (s : string) : split_slash s <> [].
Proof.
  induction s as [|c s IH]; simpl; [discriminate|].
  destruct (decide (c = slash)); [discriminate|]. destruct (split_slash s); discriminate.
Qed.

Lemma split_slash_app (a b : string) :
  split_slash (a +:+ String slash b) = split_slash a ++ split_slash b.
Proof.
  induction a as [|c a IH]; simpl.
  - reflexivity.
  - rewrite IH. destruct (decide (c = slash)); [reflexivity|].
    pose proof (split_slash_nonempty a).
    destruct (split_slash a); [congruence|reflexivity].
Qed.

Lemma slash_free_cons (c : ascii) (x : string) :
  slash_free (String c x) -> c <> slash /\ slash_free x.
Proof.
  intros H. split.
  - intros ->. apply H. exists "", x. reflexivity.
  - intros Hc. apply H, contains_cons, Hc.
Qed.

Lemma split_slash_free (x : string) : slash_free x -> split_slash x = [x].
Proof.
  induction x as [|c x IH]; intros H; [reflexivity|].
  apply slash_free_cons in H as [Hc Hx]. simpl.
  rewrite decide_False by exact Hc. rewrite (IH Hx). reflexivity.
Qed.

(** [simpl] leaves [+:+] folded here, so its two equations are lemmas. *)
Lemma append_nil_l (s : string) : "" +:+ s = s.
Proof. reflexivity. Qed.

Lemma append_cons (c : ascii) (a b : string) : String c a +:+ b = String c (a +:+ b).
Proof. reflexivity. Qed.

Lemma append_nil_r (s : string) : s +:+ "" = s.
Proof. induction s as [|c s IH]; [reflexivity|]. rewrite append_cons. congruence. Qed.

Lemma append_assoc (a b c : string) : a +:+ (b +:+ c) = (a +:+ b) +:+ c.
Proof. induction a as [|x a IH]; [reflexivity|]. rewrite !append_cons. congruence. Qed.

Lemma join_slash_cons (x : string) (l : list string) :
  join_slash (x :: l) = x +:+ match l with [] => "" | _ => String slash (join_slash l) end.
Proof. destruct l; simpl; [rewrite append_nil_r|]; reflexivity. Qed.

Lemma split_join (l : list string) :
  l <> [] -> Forall slash_free l -> split_slash (join_slash l) = l.
Proof.
  induction l as [|x [|y l] IH]; intros Hne Hf; [congruence| |].
  - inversion Hf; subst. simpl. apply split_slash_free. assumption.
  - inversion Hf; subst.
    change (split_slash (x +:+ String slash (join_slash (y :: l))) = x :: y :: l).
    rewrite split_slash_app, split_slash_free by assumption.
    rewrite IH by (discriminate || assumption). reflexivity.
Qed.

Lemma slash_free_empty : slash_free "".
Proof.
  intros (pre & post & H). apply (f_equal String.length) in H.
  rewrite !slength_app in H. simpl in H. lia.
Qed.

Lemma slash_free_cons_intro (c : ascii) (x : string) :
  c <> slash -> slash_free x -> slash_free (String c x).
Proof.
  intros Hc Hx (pre & post & H). destruct pre as [|d pre].
  - injection H as ->. apply Hc. reflexivity.
  - rewrite append_cons in H. injection H as _ H. apply Hx. exists pre, post. exact H.
Qed.

Lemma split_slash_all_free (s : string) : Forall slash_free (split_slash s).
Proof.
  induction s as [|c s IH]; simpl.
  - constructor; [apply slash_free_empty|constructor].
  - destruct (decide (c = slash)); [constructor; [apply slash_free_empty|exact IH]|].
    destruct (split_slash s) as [|h t]; [constructor; [|constructor]|].
    + apply slash_free_cons_intro; [assumption|apply slash_free_empty].
    + inversion IH; subst. constructor; [|assumption].
      apply slash_free_cons_intro; assumption.
Qed.

Lemma dotsfirst_dd_prefix (C S : list string) :
  dotsfirst (C ++ ".." :: S) -> Forall (fun y => y = "..") C.
Proof.
  induction C as [|c C IH]; simpl; intros H; [constructor|].
  destruct H as [[-> H]|H]; [constructor; auto|].
  exfalso. inversion H as [|? ? _ H']; subst.
  apply Forall_app in H' as [_ H'']. inversion H''; subst. congruence.
Qed.

Lemma dotsfirst_prefix (C S : list string) : dotsfirst (C ++ S) -> dotsfirst C.
Proof.
  induction C as [|c C IH]; simpl; intros H; [exact I|].
  destruct H as [[-> H]|H]; [left; auto|].
  right. inversion H as [|? ? Hc H']; subst.
  apply Forall_app in H' as [H' _]. constructor; assumption.
Qed.

Lemma dotsfirst_tail_plain (C B : list string) (b : string) :
  dotsfirst (C ++ b :: B) -> b <> ".." -> Forall (fun y => y <> "..") (b :: B).
Proof.
  induction C as [|c C IH]; simpl; intros H Hb.
  - destruct H as [[? _]|H]; [congruence|exact H].
  - destruct H as [[_ H]|H]; [auto|]. inversion H; subst.
    apply Forall_app in H3 as [_ H3]. exact H3.
Qed.

Lemma dotsfirst_snoc (S : list string) (x : string) :
  dotsfirst S -> x <> ".." -> dotsfirst (S ++ [x]).
Proof.
  induction S as [|s S IH]; simpl; intros H Hx.
  - right. constructor; [exact Hx|constructor].
  - destruct H as [[-> H]|H]; [left; auto|].
    right. change (Forall (fun y => y <> "..") ((s :: S) ++ [x])).
    apply Forall_app. split; [exact H|constructor; [exact Hx|constructor]].
Qed.

Lemma dotsfirst_snoc_dd (S : list string) :
  Forall (fun y => y = "..") S -> dotsfirst (S ++ [".."]).
Proof.
  induction S as [|s S IH]; simpl; intros H.
  - left. split; [reflexivity|exact I].
  - inversion H; subst. left. auto.
Qed.

Lemma seg_ok_dd : seg_ok "..".
Proof.
  split; [discriminate|]. split; [discriminate|].
  apply slash_free_cons_intro; [discriminate|].
  apply slash_free_cons_intro; [discriminate|apply slash_free_empty].
Qed.

(** ** [path.Clean] on element lists *)

(** Scanning elements that extend a clean list pushes each of them. *)
Lemma fold_clean_push (r : bool) (C S : list string) :
  clean_ok r (C ++ S) ->
  fold_left (clean_step r) S (rev C) = rev (C ++ S).
Proof.
  revert C; induction S as [|x S IH]; intros C (Hseg & Hdf & Hroot).
  - rewrite app_nil_r. reflexivity.
  - simpl. apply Forall_app in Hseg as [HC Hx]. inversion Hx as [|? ? [Hx1 [Hx2 Hx3]] HS]; subst.
    assert (Hstep : clean_step r (rev C) x = rev (C ++ [x])).
    { unfold clean_step. rewrite rev_app_distr. simpl.
      rewrite decide_False by exact Hx1. rewrite decide_False by exact Hx2.
      destruct (decide (x = "..")) as [->|Hne]; [|reflexivity].
      pose proof (dotsfirst_dd_prefix C S Hdf) as Hdd.
      destruct r.
      - exfalso. apply Hroot; [reflexivity|]. apply in_or_app. right. left. reflexivity.
      - destruct (rev C) as [|top rest] eqn:E; [reflexivity|].
        assert (Htop : In top C) by (apply in_rev; rewrite E; left; reflexivity).
        rewrite List.Forall_forall in Hdd. rewrite (Hdd top Htop). simpl.
        try (rewrite decide_True by reflexivity); reflexivity. }
    rewrite Hstep. rewrite (IH (C ++ [x])); [rewrite <- app_assoc; reflexivity|].
    rewrite <- app_assoc. simpl. split; [|split; auto].
    apply Forall_app. split; [exact HC|constructor; [split; auto|exact HS]].
Qed.

(** Scanning [".."] once per element of a stack without [".."] pops it. *)
Lemma fold_clean_pop (r : bool) (L st : list string) :
  Forall (fun y => y <> "..") L ->
  fold_left (clean_step r) (repeat ".." (length L)) (L ++ st) = st.
Proof.
  induction L as [|y L IH]; intros H; [reflexivity|].
  inversion H as [|? ? Hy HL]; subst. simpl.
  unfold clean_step at 2. simpl.
  rewrite decide_False by exact Hy. apply IH, HL.
Qed.

Lemma clean_step_ok (r : bool) (st : list string) (seg : string) :
  clean_ok r (rev st) -> slash_free seg -> clean_ok r (rev (clean_step r st seg)).
Proof.
  intros (Hseg & Hdf & Hroot) Hsf. unfold clean_step.
  destruct (decide (seg = "")); [split; auto|].
  destruct (decide (seg = ".")); [split; auto|].
  destruct (decide (seg = "..")) as [->|Hdd].
  - destruct st as [|top rest].
    + destruct r; simpl.
      * split; [constructor|split; [exact I|intros _ []]].
      * split; [constructor; [apply seg_ok_dd|constructor]|].
        split; [left; split; [reflexivity|exact I]|discriminate].
    + simpl in Hseg, Hdf, Hroot.
      destruct (decide (top = "..")) as [->|Htop].
      * assert (Hr : r = false).
        { destruct r; [|reflexivity]. exfalso. apply Hroot; [reflexivity|].
          apply in_or_app. right. left. reflexivity. }
        subst r. simpl. split; [|split].
        -- apply Forall_app. split; [exact Hseg|constructor; [apply seg_ok_dd|constructor]].
        -- apply dotsfirst_snoc_dd. apply Forall_app.
           split; [exact (dotsfirst_dd_prefix _ [] Hdf)|constructor; [reflexivity|constructor]].
        -- discriminate.
      * split; [|split].
        -- apply Forall_app in Hseg as [Hseg _]. exact Hseg.
        -- exact (dotsfirst_prefix _ _ Hdf).
        -- intros Hr Hin. apply (Hroot Hr), in_or_app. left. exact Hin.
  - simpl. split; [|split].
    + apply Forall_app. split; [exact Hseg|constructor; [split; auto|constructor]].
    + apply dotsfirst_snoc; assumption.
    + intros Hr Hin. apply in_app_or in Hin as [Hin|[Hin|[]]]; [exact (Hroot Hr Hin)|congruence].
Qed.

Lemma fold_clean_ok (r : bool) (l st : list string) :
  Forall slash_free l -> clean_ok r (rev st) ->
  clean_ok r (rev (fold_left (clean_step r) l st)).
Proof.
  revert st; induction l as [|x l IH]; intros st Hl Hst; simpl; [exact Hst|].
  inversion Hl; subst. apply IH; [assumption|]. apply clean_step_ok; assumption.
Qed.

Lemma clean_segs_ok (r : bool) (s : string) : clean_ok r (clean_segs r (split_slash s)).
Proof.
  unfold clean_segs. apply fold_clean_ok; [apply split_slash_all_free|].
  split; [constructor|split; [exact I|intros _ []]].
Qed.

Lemma seg_ok_slash_free (S : list string) : Forall seg_ok S -> Forall slash_free S.
Proof. intros H. eapply Forall_impl; [exact H|]. intros x (_ & _ & Hx). exact Hx. Qed.

Lemma join_head (S : list string) :
  S <> [] -> Forall seg_ok S ->
  exists c rest, join_slash S = String c rest /\ c <> slash.
Proof.
  intros Hne Hok. pose proof (split_join S Hne (seg_ok_slash_free S Hok)) as Hs.
  destruct (join_slash S) as [|c rest] eqn:E.
  - exfalso. simpl in Hs. subst S. inversion Hok as [|? ? (H & _) _]. congruence.
  - exists c, rest. split; [reflexivity|]. intros ->.
    simpl in Hs. try (rewrite decide_True in Hs by reflexivity). subst S.
    inversion Hok as [|? ? (H & _) _]. congruence.
Qed.

Lemma render_rooted (S : list string) : render true S = String slash (join_slash S).
Proof. reflexivity. Qed.

Lemma render_relative (S : list string) :
  S <> [] -> render false S = join_slash S.
Proof. destruct S; [congruence|reflexivity]. Qed.

Lemma split_slash_slash (j : string) :
  split_slash (String slash j) = "" :: split_slash j.
Proof. simpl. try (rewrite decide_True by reflexivity). reflexivity. Qed.

Lemma fold_render (r : bool) (S : list string) :
  clean_ok r S -> fold_left (clean_step r) (split_slash (render r S)) [] = rev S.
Proof.
  intros Hok. pose proof Hok as (Hseg & _ & _).
  destruct r.
  - rewrite render_rooted, split_slash_slash. cbn [fold_left].
    change (clean_step true [] "") with (@nil string).
    destruct S as [|x S']; [reflexivity|].
    rewrite split_join by (discriminate || apply seg_ok_slash_free, Hseg).
    apply (fold_clean_push true []). exact Hok.
  - destruct S as [|x S']; [reflexivity|].
    rewrite render_relative, split_join by (discriminate || apply seg_ok_slash_free, Hseg).
    apply (fold_clean_push false []). exact Hok.
Qed.

Lemma is_rooted_render (r : bool) (S : list string) :
  clean_ok r S -> is_rooted (render r S) = r.
Proof.
  intros (Hseg & _ & _). destruct r; [reflexivity|].
  destruct S as [|x S']; [reflexivity|].
  rewrite render_relative by discriminate.
  destruct (join_head (x :: S')) as (c & rest & -> & Hc); [discriminate|exact Hseg|].
  unfold is_rooted. simpl. destruct (decide _) as [e|]; [|reflexivity].
  exfalso. apply Hc. symmetry. exact e.
Qed.

Lemma Clean_render (r : bool) (S : list string) :
  clean_ok r S -> Clean (render r S) = render r S.
Proof.
  intros Hok. unfold Clean, clean_segs.
  rewrite (is_rooted_render r S Hok), (fold_render r S Hok), rev_involutive.
  reflexivity.
Qed.

Lemma rel_segs_render (r : bool) (S : list string) :
  clean_ok r S -> rel_segs (render r S) = S.
Proof.
  intros Hok. pose proof Hok as (Hseg & _ & _).
  destruct r.
  - rewrite render_rooted. unfold rel_segs.
    rewrite decide_False by discriminate. rewrite decide_True by reflexivity.
    destruct S as [|x S']; [reflexivity|].
    destruct (join_head (x :: S')) as (c & rest & E & _); [discriminate|exact Hseg|].
    rewrite E, decide_False by discriminate. rewrite <- E.
    apply split_join; [discriminate|apply seg_ok_slash_free, Hseg].
  - destruct S as [|x S']; [reflexivity|].
    rewrite render_relative by discriminate.
    pose proof (split_join (x :: S') ltac:(discriminate) (seg_ok_slash_free _ Hseg)) as Hs.
    destruct (join_head (x :: S')) as (c & rest & E & Hc); [discriminate|exact Hseg|].
    unfold rel_segs. destruct (decide (join_slash (x :: S') = ".")) as [Hd|Hd].
    + exfalso. rewrite Hd in Hs. simpl in Hs. injection Hs as <- _.
      inversion Hseg as [|? ? (_ & H & _) _]. congruence.
    + rewrite E, decide_False by exact Hc. rewrite <- E. exact Hs.
Qed.

Lemma Clean_shape (s : string) : exists r S, clean_ok r S /\ Clean s = render r S.
Proof. exists (is_rooted s), (clean_segs (is_rooted s) (split_slash s)). split; [apply clean_segs_ok|reflexivity]. Qed.

Lemma render_nonempty (r : bool) (S : list string) : clean_ok r S -> render r S <> "".
Proof.
  intros (Hseg & _ & _). destruct r; [discriminate|].
  destruct S as [|x S']; [discriminate|].
  rewrite render_relative by discriminate.
  destruct (join_head (x :: S')) as (c & rest & -> & _); [discriminate|exact Hseg|discriminate].
Qed.

Lemma is_rooted_app (a b : string) : a <> "" -> is_rooted (a +:+ b) = is_rooted a.
Proof. destruct a as [|c a]; [congruence|]. intros _. reflexivity. Qed.

Lemma Clean_render_app (r : bool) (S : list string) (p : string) :
  clean_ok r S ->
  Clean (render r S +:+ String slash p) =
    render r (rev (fold_left (clean_step r) (split_slash p) (rev S))).
Proof.
  intros Hok. unfold Clean, clean_segs.
  rewrite is_rooted_app by (apply render_nonempty, Hok).
  rewrite (is_rooted_render r S Hok), split_slash_app, fold_left_app, (fold_render r S Hok).
  reflexivity.
Qed.

Lemma clean_step_plain (r : bool) (st : list string) (x : string) :
  seg_ok x -> x <> ".." -> clean_step r st x = x :: st.
Proof.
  intros (H1 & H2 & _) H3. unfold clean_step.
  rewrite decide_False by exact H1. rewrite decide_False by exact H2.
  rewrite decide_False by exact H3. reflexivity.
Qed.

Lemma contains_app_r (sub a c : string) : contains sub a -> contains sub (a +:+ c).
Proof.
  intros (pre & post & ->). exists pre, (post +:+ c).
  rewrite <- !append_assoc. reflexivity.
Qed.

Lemma slash_free_app (a b : string) : slash_free a -> slash_free b -> slash_free (a +:+ b).
Proof.
  induction a as [|c a IH]; intros Ha Hb; [exact Hb|].
  apply slash_free_cons in Ha as [Hc Ha]. rewrite append_cons.
  apply slash_free_cons_intro; auto.
Qed.

Lemma slash_free_substring (n : nat) (b : string) :
  slash_free b -> slash_free (String.substring 0 n b).
Proof.
  intros Hb Hc. apply Hb. rewrite <- (substring_sdrop n b). apply contains_app_r, Hc.
Qed.

Lemma stem_slash_free (f : string) : slash_free (Data.stem f).
Proof.
  unfold Data.stem.
  assert (Hb : slash_free (default "" (last (split_slash f)))).
  { destruct (last (split_slash f)) as [b|] eqn:E; [|apply slash_free_empty].
    apply last_Some_elem_of in E. simpl.
    pose proof (split_slash_all_free f) as Hf. rewrite Forall_forall in Hf. auto. }
  destruct (0 <=? _); [apply slash_free_substring|]; exact Hb.
Qed.

Lemma seg_ts (y : string) :
  slash_free y -> seg_ok (y +:+ ".ts") /\ y +:+ ".ts" <> "..".
Proof.
  intros Hy.
  assert (Hl : forall z, (String.length z < 3)%nat -> y +:+ ".ts" <> z).
  { intros z Hz E. apply (f_equal String.length) in E. rewrite slength_app in E.
    simpl in E. lia. }
  split; [|apply Hl; simpl; lia].
  split; [apply Hl; simpl; lia|]. split; [apply Hl; simpl; lia|].
  apply slash_free_app; [exact Hy|].
  apply slash_free_cons_intro; [discriminate|].
  apply slash_free_cons_intro; [discriminate|].
  apply slash_free_cons_intro; [discriminate|apply slash_free_empty].
Qed.

Lemma clean_ok_snoc (r : bool) (S : list string) (x : string) :
  clean_ok r S -> seg_ok x -> x <> ".." -> clean_ok r (S ++ [x]).
Proof.
  intros (Hseg & Hdf & Hroot) Hx Hxd. split; [|split].
  - apply Forall_app. split; [exact Hseg|constructor; [exact Hx|constructor]].
  - apply dotsfirst_snoc; assumption.
  - intros Hr Hin. apply in_app_or in Hin as [Hin|[Hin|[]]]; [exact (Hroot Hr Hin)|congruence].
Qed.

(** The shape of a generated output name: a cleaned path whose last element
    is the stem followed by [".ts"]. *)
Lemma GetTSFileName_shape (f : string) :
  exists r S, clean_ok r (S ++ [Data.stem f +:+ ".ts"]) /\
    Data.GetTSFileName f = render r (S ++ [Data.stem f +:+ ".ts"]).
Proof.
  destruct (seg_ts (Data.stem f) (stem_slash_free f)) as [Hx Hxd].
  set (x := Data.stem f +:+ ".ts") in *.
  destruct (Clean_shape (upto_last_slash f)) as (r & S & Hok & HD).
  exists r, S. split; [apply clean_ok_snoc; assumption|].
  unfold Data.GetTSFileName. fold x. unfold path_Join.
  assert (HDne : Dir f <> "") by (unfold Dir; rewrite HD; apply render_nonempty, Hok).
  assert (Hxne : x <> "") by apply Hx.
  rewrite filter_cons_True by exact HDne. rewrite filter_cons_True by exact Hxne.
  rewrite filter_nil.
  change (join_slash [Dir f; x]) with (Dir f +:+ String slash x).
  unfold Dir. rewrite HD, (Clean_render_app r S x Hok).
  destruct Hx as (Hx1 & Hx2 & Hx3).
  rewrite (split_slash_free x Hx3). cbn [fold_left].
  rewrite clean_step_plain by (repeat split; assumption).
  change (x :: rev S) with (rev [x] ++ rev S). rewrite <- rev_app_distr, rev_involutive.
  reflexivity.
Qed.

Lemma strip_common_prefix (bs ts : list string) :
  exists C, bs = C ++ (strip_common bs ts).1 /\ ts = C ++ (strip_common bs ts).2.
Proof.
  revert ts; induction bs as [|b bs IH]; intros ts; [exists []; auto|].
  destruct ts as [|t ts]; [exists []; auto|]. simpl.
  destruct (decide (b = t)) as [->|]; [|exists []; auto].
  destruct (IH ts) as (C & H1 & H2). exists (t :: C). simpl. rewrite <- H1, <- H2. auto.
Qed.

Lemma Rel_tail_formula (bs T : list string) :
  ".." +:+ foldr (fun _ acc => "/.." +:+ acc) "" bs
    +:+ match T with [] => "" | _ => "/" +:+ join_slash T end =
  join_slash (repeat ".." (S (length bs)) ++ T).
Proof.
  induction bs as [|b bs IH].
  - cbn [foldr repeat length app]. rewrite join_slash_cons, append_nil_l.
    destruct T; reflexivity.
  - cbn [foldr length]. rewrite <- append_assoc.
    change (repeat ".." (S (S (length bs))) ++ T) with (".." :: (repeat ".." (S (length bs)) ++ T)).
    rewrite join_slash_cons, <- IH. reflexivity.
Qed.

Lemma contains_single_cons (c d : ascii) (s : string) :
  contains (String c "") (String d s) -> c = d \/ contains (String c "") s.
Proof.
  intros ([|e pre] & post & H).
  - left. injection H as <- _. reflexivity.
  - right. rewrite append_cons in H. injection H as _ H. exists pre, post. exact H.
Qed.

Lemma not_contains_empty (c : ascii) : ~ contains (String c "") "".
Proof.
  intros (pre & post & H). apply (f_equal String.length) in H.
  rewrite !slength_app in H. simpl in H. lia.
Qed.

Lemma no_t_cons (d : ascii) (s : string) :
  d <> "t"%char -> ~ contains "t" s -> ~ contains "t" (String d s).
Proof. intros Hd Hs H. apply contains_single_cons in H as [H|H]; [exact (Hd (eq_sym H))|exact (Hs H)]. Qed.

Lemma no_t_dots (n : nat) : ~ contains "t" (join_slash (repeat ".." n)).
Proof.
  induction n as [|n IH]; [apply not_contains_empty|].
  cbn [repeat]. rewrite join_slash_cons.
  destruct n as [|n].
  - apply no_t_cons; [discriminate|]. apply no_t_cons; [discriminate|]. apply not_contains_empty.
  - cbn [repeat]. cbn [repeat] in IH.
    apply no_t_cons; [discriminate|]. apply no_t_cons; [discriminate|].
    apply no_t_cons; [discriminate|]. exact IH.
Qed.

Lemma contains_ts_t (s : string) : contains ".ts" s -> contains "t" s.
Proof.
  intros (pre & post & ->). exists (pre +:+ "."), ("s" +:+ post).
  rewrite <- append_assoc. reflexivity.
Qed.

(** [filepath.Rel] between two cleaned paths: either ["."], or the paths are
    both rooted or both relative, share the leading elements [C], and the
    result climbs out of the rest [B] of the base (which has no [".."]) and
    descends into the rest [T] of the target. *)
Lemma Rel_clean (rb rt : bool) (SB ST : list string) (s : string) :
  clean_ok rb SB -> clean_ok rt ST -> Rel (render rb SB) (render rt ST) = Ret s ->
  s = "." \/
  (rb = rt /\ exists C B T, SB = C ++ B /\ ST = C ++ T /\
     Forall (fun y => y <> "..") B /\ s = join_slash (repeat ".." (length B) ++ T)).
Proof.
  intros HB HT H. unfold Rel in H.
  rewrite (Clean_render _ _ HB), (Clean_render _ _ HT) in H.
  destruct (decide (render rt ST = render rb SB)) as [_|Hne]; [left; congruence|].
  rewrite (is_rooted_render _ _ HB), (is_rooted_render _ _ HT) in H.
  destruct (Bool.eqb rb rt) eqn:Eb; simpl in H; [|discriminate].
  apply Bool.eqb_prop in Eb. subst rt. right. split; [reflexivity|].
  rewrite (rel_segs_render _ _ HB), (rel_segs_render _ _ HT) in H.
  destruct (strip_common_prefix SB ST) as (C & E1 & E2).
  destruct (strip_common SB ST) as [B T]. simpl in E1, E2.
  exists C, B, T. split; [exact E1|]. split; [exact E2|].
  destruct B as [|b B'].
  - split; [constructor|]. injection H as <-. reflexivity.
  - destruct (decide (b = "..")) as [->|Hbd]; [discriminate|].
    pose proof HB as (_ & Hdf & _). rewrite E1 in Hdf.
    split; [exact (dotsfirst_tail_plain C B' b Hdf Hbd)|].
    change (length (b :: B')) with (S (length B')). rewrite <- Rel_tail_formula.
    repeat match type of H with
    | context [match ?x with _ => _ end] =>
        lazymatch type of x with
        | string => destruct x
        | ascii => destruct x
        | bool => destruct x
        end
    end;
    try discriminate; try (exfalso; apply Hbd; reflexivity);
    injection H as <-; reflexivity.
Qed.

Lemma join_snoc_ex (L : list string) (x : string) :
  exists pre, join_slash (L ++ [x]) = pre +:+ x.
Proof.
  induction L as [|a L IH]; [exists ""; reflexivity|].
  destruct IH as [pre Hpre]. rewrite <- app_comm_cons, join_slash_cons.
  destruct (L ++ [x]) as [|l0 l1] eqn:E; [destruct L; discriminate|].
  exists (a +:+ String slash pre). rewrite Hpre, <- append_assoc. reflexivity.
Qed.

Lemma Forall_repeat_intro {A} (P : A -> Prop) (a : A) (n : nat) :
  P a -> Forall P (repeat a n).
Proof. intros Ha. induction n; constructor; assumption. Qed.

Lemma slash_free_dd : slash_free "..".
Proof. apply seg_ok_dd. Qed.

Lemma source_path_in_run env r base typeInfo p :
  IsFileToGenerate r (File typeInfo) = true ->
  source_path env r base typeInfo = Ret p ->
  exists s, Rel (Dir base) (Data.GetTSFileName (File typeInfo)) = Ret s /\
    (p = s \/ p = "./" +:+ s).
Proof.
  intros Hgen Hp. unfold source_path in Hp. rewrite Hgen in Hp. simpl in Hp.
  destruct (Rel (Dir base) (Data.GetTSFileName (File typeInfo))) as [s|e|e];
    simpl in Hp; try discriminate.
  exists s. split; [reflexivity|]. injection Hp as <-. unfold ToSlash, FromSlash.
  destruct (negb _); auto.
Qed.

Lemma split_dot_slash (s : string) : split_slash ("./" +:+ s) = "." :: split_slash s.
Proof.
  change ("./" +:+ s) with ("." +:+ String slash s). rewrite split_slash_app. reflexivity.
Qed.

(** C4: for a target generated in this run, the stored import specifier
    with [".ts"] put back, joined to the directory of the importing file's
    output name, is exactly the target's output name. *)
Theorem in_run_round_trip env r base typeInfo d :
  IsFileToGenerate r (File typeInfo) = true ->
  resolve_dependency env r base typeInfo = Ret d ->
  path_Join [Dir base; Data.SourceFile d +:+ ".ts"] = Data.GetTSFileName (File typeInfo).
Proof.
  intros Hgen Hd.
  destruct (source_path env r base typeInfo) as [p|e|e] eqn:Hp;
    [|unfold resolve_dependency in Hd; rewrite Hp in Hd; simpl in Hd; discriminate ..].
  destruct (source_path_in_run env r base typeInfo p Hgen Hp) as (s & Hs & Hps).
  destruct (Clean_shape (upto_last_slash base)) as (rb & SB & HB & HD).
  assert (HDir : Dir base = render rb SB) by exact HD.
  destruct (GetTSFileName_shape (File typeInfo)) as (rt & S0 & HT & Htg).
  destruct (seg_ts _ (stem_slash_free (File typeInfo))) as [Hx Hxd].
  set (x := Data.stem (File typeInfo) +:+ ".ts") in *.
  rewrite HDir, Htg in Hs. rewrite HDir, Htg.
  rewrite (resolve_dependency_slice _ _ _ _ _ Hp) in Hd.
  assert (Hcont : contains ".ts" p).
  { apply contains_LastIndex. unfold slice_to in Hd.
    destruct ((0 <=? LastIndex p ".ts") && _) eqn:Ec; [|discriminate].
    apply andb_prop in Ec as [Ec _]. apply Z.leb_le in Ec. exact Ec. }
  apply contains_ts_t in Hcont.
  destruct (Rel_clean rb rt SB (S0 ++ [x]) s HB HT Hs)
    as [->|(<- & C & B & T & E1 & E2 & HBdd & ->)].
  { exfalso. revert Hcont.
    destruct Hps as [->| ->]; repeat (apply no_t_cons; [discriminate|]);
      apply not_contains_empty. }
  induction T as [|y T0 _] using rev_ind.
  { exfalso. rewrite app_nil_r in Hps. revert Hcont.
    destruct Hps as [->| ->]; [apply no_t_dots|].
    apply no_t_cons; [discriminate|]. apply no_t_cons; [discriminate|]. apply no_t_dots. }
  rewrite app_assoc in E2. apply app_inj_tail in E2 as [E2 <-].
  rewrite app_assoc in Hps.
  destruct (join_snoc_ex (repeat ".." (length B) ++ T0) x) as [pre Hpre].
  assert (Hq : exists q, p = q +:+ ".ts").
  { rewrite Hpre in Hps. unfold x in Hps.
    destruct Hps as [->| ->].
    - exists (pre +:+ Data.stem (File typeInfo)). apply append_assoc.
    - exists ("./" +:+ pre +:+ Data.stem (File typeInfo)).
      rewrite !append_assoc. reflexivity. }
  destruct Hq as [q ->].
  rewrite LastIndex_ts_suffix, slice_to_in_range, substring_app in Hd
    by (rewrite slength_app; lia).
  injection Hd as <-. cbn [Data.SourceFile].
  assert (Hsplit : fold_left (clean_step rb) (split_slash (q +:+ ".ts")) (rev SB) =
                   fold_left (clean_step rb) (split_slash (join_slash ((repeat ".." (length B) ++ T0) ++ [x]))) (rev SB)).
  { destruct Hps as [<- | ->]; [reflexivity|].
    rewrite split_dot_slash. reflexivity. }
  assert (Hne : q +:+ ".ts" <> "").
  { intros E. apply (f_equal String.length) in E. rewrite slength_app in E. simpl in E. lia. }
  unfold path_Join.
  rewrite filter_cons_True by (apply render_nonempty, HB).
  rewrite filter_cons_True by exact Hne. rewrite filter_nil.
  change (join_slash [render rb SB; q +:+ ".ts"]) with (render rb SB +:+ String slash (q +:+ ".ts")).
  rewrite (Clean_render_app rb SB _ HB), Hsplit.
  pose proof HT as (HTseg & _ & _). rewrite E2 in HTseg.
  rewrite split_join.
  2: { destruct T0; simpl; destruct (repeat _ _); discriminate. }
  2: { rewrite <- app_assoc. apply Forall_app. split.
       - apply Forall_repeat_intro, slash_free_dd.
       - apply seg_ok_slash_free. rewrite <- app_assoc in HTseg.
         apply Forall_app in HTseg as [_ HTseg]. exact HTseg. }
  rewrite <- app_assoc, fold_left_app, E1, rev_app_distr.
  rewrite <- (length_rev B), (fold_clean_pop rb (rev B) (rev C) (Forall_rev HBdd)).
  rewrite E2, <- app_assoc in HT. rewrite (fold_clean_push rb C (T0 ++ [x]) HT).
  rewrite rev_involutive, E2, <- app_assoc. reflexivity.
Qed.

Lemma in_run_round_trip_witness :
  IsFileToGenerate ex_reg (File ex_Foo) = true /\
  resolve_dependency ex_env ex_reg "x/b.ts" ex_Foo =
    Ret {| Data.ModuleIdentifier := "p1_a"; Data.SourceFile := "../a" |} /\
  path_Join [Dir "x/b.ts"; "../a" +:+ ".ts"] = Data.GetTSFileName (File ex_Foo).
Proof.
  split; [reflexivity|]. split; [vm_compute; reflexivity|].
  apply (in_run_round_trip ex_env ex_reg "x/b.ts" ex_Foo
           {| Data.ModuleIdentifier := "p1_a"; Data.SourceFile := "../a" |});
    [reflexivity | vm_compute; reflexivity].
Defined.

(** ** [filepath.Rel] on arbitrary paths *)

Lemma Clean_rooted (b : string) : is_rooted (Clean b) = is_rooted b.
Proof. apply is_rooted_render, clean_segs_ok. Qed.

Lemma Rel_gen (b t s : string) :
  let rb := is_rooted b in let SB := clean_segs rb (split_slash b) in
  let rt := is_rooted t in let ST := clean_segs rt (split_slash t) in
  Rel b t = Ret s ->
  (s = "." /\ Clean t = Clean b) \/
  (rb = rt /\ exists C B T, SB = C ++ B /\ ST = C ++ T /\
     Forall (fun y => y <> "..") B /\ (B = [] -> T <> []) /\
     s = join_slash (repeat ".." (length B) ++ T)).
Proof.
  intros rb SB rt ST H.
  pose proof (clean_segs_ok rb b) as HB. pose proof (clean_segs_ok rt t) as HT.
  fold rb SB in HB. fold rt ST in HT.
  unfold Rel in H.
  destruct (decide (Clean t = Clean b)) as [Heq|Hne]; [left; split; congruence|].
  change (Clean b) with (render rb SB) in H, Hne.
  change (Clean t) with (render rt ST) in H, Hne.
  rewrite (is_rooted_render _ _ HB), (is_rooted_render _ _ HT) in H.
  destruct (Bool.eqb rb rt) eqn:Eb; simpl in H; [|discriminate].
  apply Bool.eqb_prop in Eb. rewrite <- Eb in HT, Hne, H |- *. right. split; [reflexivity|].
  rewrite (rel_segs_render _ _ HB), (rel_segs_render _ _ HT) in H.
  destruct (strip_common_prefix SB ST) as (C & E1 & E2).
  destruct (strip_common SB ST) as [B T]. simpl in E1, E2.
  exists C, B, T. split; [exact E1|]. split; [exact E2|].
  destruct B as [|b0 B'].
  - split; [constructor|]. split.
    + intros _ ->. apply Hne. rewrite E1, E2. reflexivity.
    + injection H as <-. reflexivity.
  - destruct (decide (b0 = "..")) as [->|Hbd]; [discriminate|].
    pose proof HB as (_ & Hdf & _). rewrite E1 in Hdf.
    split; [exact (dotsfirst_tail_plain C B' b0 Hdf Hbd)|].
    split; [discriminate|].
    change (length (b0 :: B')) with (S (length B')). rewrite <- Rel_tail_formula.
    repeat match type of H with
    | context [match ?x with _ => _ end] =>
        lazymatch type of x with
        | string => destruct x
        | ascii => destruct x
        | bool => destruct x
        end
    end;
    try discriminate; try (exfalso; apply Hbd; reflexivity);
    injection H as <-; reflexivity.
Qed.

Lemma Clean_app_slash (b p : string) :
  b <> "" -> Clean (b +:+ String slash p) = Clean (Clean b +:+ String slash p).
Proof.
  intros Hb.
  change (Clean b) with (render (is_rooted b) (clean_segs (is_rooted b) (split_slash b))).
  rewrite (Clean_render_app _ _ p (clean_segs_ok (is_rooted b) b)).
  unfold Clean at 1. unfold clean_segs at 1.
  rewrite (is_rooted_app b _ Hb), split_slash_app, fold_left_app.
  unfold clean_segs. rewrite rev_involutive. reflexivity.
Qed.

Lemma split_dot : split_slash "." = ["."].
Proof. reflexivity. Qed.

Lemma clean_step_dot (r : bool) (st : list string) : clean_step r st "." = st.
Proof. reflexivity. Qed.

Lemma clean_step_empty (r : bool) (st : list string) : clean_step r st "" = st.
Proof. reflexivity. Qed.

(** The stack after the elements of a [Rel] result, from the base's stack. *)
Lemma fold_rel_result (r : bool) (C B T : list string) :
  clean_ok r (C ++ B) -> clean_ok r (C ++ T) ->
  Forall (fun y => y <> "..") B ->
  fold_left (clean_step r) (split_slash (join_slash (repeat ".." (length B) ++ T)))
            (rev (C ++ B)) = rev (C ++ T).
Proof.
  intros HB HT HBdd.
  destruct (repeat ".." (length B) ++ T) as [|l0 l1] eqn:EL.
  - apply app_eq_nil in EL as [E1 ->]. destruct B; [|discriminate].
    reflexivity.
  - rewrite <- EL, split_join.
    2: { rewrite EL. discriminate. }
    2: { apply Forall_app. split; [apply Forall_repeat_intro, slash_free_dd|].
         pose proof HT as (HTs & _). apply Forall_app in HTs as [_ HTs].
         apply seg_ok_slash_free, HTs. }
    rewrite fold_left_app, rev_app_distr, <- (length_rev B).
    rewrite (fold_clean_pop r (rev B) (rev C) (Forall_rev HBdd)).
    apply (fold_clean_push r C T HT).
Qed.

Lemma rel_result_nonempty (C B T : list string) :
  Forall seg_ok T -> (B = [] -> T <> []) ->
  join_slash (repeat ".." (length B) ++ T) <> "".
Proof.
  intros HT HBT E.
  assert (Hne : repeat ".." (length B) ++ T <> []).
  { destruct B; [|discriminate]. simpl. apply HBT; reflexivity. }
  assert (Hf : Forall slash_free (repeat ".." (length B) ++ T)).
  { apply Forall_app. split; [apply Forall_repeat_intro, slash_free_dd|apply seg_ok_slash_free, HT]. }
  pose proof (split_join _ Hne Hf) as Hs. rewrite E in Hs. simpl in Hs.
  destruct B as [|b B].
  - simpl in Hs. rewrite <- Hs in HT. inversion HT as [|? ? (H & _) _]. congruence.
  - simpl in Hs. discriminate.
Qed.

(** [filepath.Join(basepath, filepath.Rel(basepath, targpath))] is
    [filepath.Clean(targpath)]. *)
Lemma Rel_round_trip (b t s : string) :
  Rel b t = Ret s -> path_Join [b; s] = Clean t.
Proof.
  intros H.
  pose proof (clean_segs_ok (is_rooted b) b) as HB.
  pose proof (clean_segs_ok (is_rooted t) t) as HT.
  destruct (Rel_gen b t s H) as [[-> Heq]|(Er & C & B & T & E1 & E2 & HBdd & HBT & ->)].
  - rewrite Heq. unfold path_Join.
    destruct (decide (b = "")) as [->|Hb].
    + reflexivity.
    + rewrite filter_cons_True by exact Hb.
      rewrite filter_cons_True by discriminate. rewrite filter_nil.
      change (join_slash [b; "."]) with (b +:+ String slash ".").
      rewrite Clean_app_slash by exact Hb. unfold Clean at 1.
      rewrite is_rooted_app by (apply render_nonempty, HB).
      change (Clean b) with (render (is_rooted b) (clean_segs (is_rooted b) (split_slash b))).
      rewrite (is_rooted_render _ _ HB). unfold clean_segs at 1.
      rewrite split_slash_app, fold_left_app, (fold_render _ _ HB), split_dot.
      cbn [fold_left]. rewrite clean_step_dot, rev_involutive. reflexivity.
  - set (rb := is_rooted b) in *. set (rt := is_rooted t) in *.
    set (SB := clean_segs rb (split_slash b)) in *.
    set (ST := clean_segs rt (split_slash t)) in *.
    assert (HTseg : Forall seg_ok T).
    { pose proof HT as (HTs & _). rewrite E2 in HTs. apply Forall_app in HTs as [_ HTs]. exact HTs. }
    pose proof (rel_result_nonempty C B T HTseg HBT) as Hsne.
    set (s := join_slash (repeat ".." (length B) ++ T)) in *.
    change (Clean t) with (render rt ST). rewrite <- Er.
    unfold path_Join.
    destruct (decide (b = "")) as [Hb|Hb].
    + rewrite filter_cons_False by (intros Hn; exact (Hn Hb)).
      rewrite filter_cons_True by exact Hsne. rewrite filter_nil.
      change (join_slash [s]) with s.
      assert (HSB : SB = []) by (unfold SB, rb; rewrite Hb; reflexivity).
      assert (Hrb : rb = false) by (unfold rb; rewrite Hb; reflexivity).
      rewrite HSB in E1. apply eq_sym, app_eq_nil in E1 as [-> ->].
      simpl app in E2. rewrite <- Er, Hrb in HT. rewrite Hrb. rewrite E2 in HT |- *.
      assert (HTne : T <> []) by (apply HBT; reflexivity).
      unfold s. simpl repeat. rewrite app_nil_l.
      rewrite <- (render_relative T HTne). apply Clean_render, HT.
    + rewrite filter_cons_True by exact Hb.
      rewrite filter_cons_True by exact Hsne. rewrite filter_nil.
      change (join_slash [b; s]) with (b +:+ String slash s).
      rewrite Clean_app_slash by exact Hb.
      change (Clean b) with (render rb SB).
      rewrite (Clean_render_app _ _ _ HB).
      rewrite <- Er in HT. rewrite E1. rewrite E1 in HB. rewrite E2 in HT |- *.
      unfold s. rewrite (fold_rel_result rb C B T HB HT HBdd), rev_involutive. reflexivity.
Qed.

Lemma clean_segs_render (r : bool) (S : list string) :
  clean_ok r S -> clean_segs (is_rooted (render r S)) (split_slash (render r S)) = S.
Proof.
  intros Hok. unfold clean_segs. rewrite (is_rooted_render _ _ Hok), (fold_render _ _ Hok).
  apply rev_involutive.
Qed.

Lemma GetTSFileName_clean (f : string) : Clean (Data.GetTSFileName f) = Data.GetTSFileName f.
Proof.
  destruct (GetTSFileName_shape f) as (r & S & Hok & ->). apply Clean_render, Hok.
Qed.

(** A successful [filepath.Rel] into a generated output name that contains a
    ['t'] ends in [".ts"]. *)
Lemma Rel_ts_suffix (b f s : string) :
  Rel b (Data.GetTSFileName f) = Ret s -> contains "t" s -> exists q, s = q +:+ ".ts".
Proof.
  intros H Ht.
  destruct (Rel_gen _ _ _ H) as [[-> _]|(_ & C & B & T & _ & E2 & _ & _ & ->)].
  { exfalso. revert Ht. apply no_t_cons; [discriminate|apply not_contains_empty]. }
  destruct (GetTSFileName_shape f) as (r & S0 & Hok & Hg).
  rewrite Hg, (clean_segs_render _ _ Hok) in E2.
  induction T as [|y T0 _] using rev_ind.
  { exfalso. rewrite app_nil_r in Ht. exact (no_t_dots _ Ht). }
  rewrite app_assoc in E2. apply app_inj_tail in E2 as [_ <-].
  rewrite app_assoc.
  destruct (join_snoc_ex (repeat ".." (length B) ++ T0) (Data.stem f +:+ ".ts")) as [pre ->].
  exists (pre +:+ Data.stem f). apply append_assoc.
Qed.

Lemma legacy_collect_types_sound env r base m names m' :
  Legacy.collect_types env r base m names = Ret m' ->
  forall k d, m' !! k = Some d ->
    m !! k = Some d \/
    exists t ti, In t names /\ Legacy.Types r !! t = Some ti /\
                 Legacy.resolve_dependency env base ti = Ret d.
Proof.
  revert m; induction names as [|t rest IH]; intros m H k d Hk; simpl in H.
  - injection H as ->. left. exact Hk.
  - destruct (Legacy.Types r !! t) as [ti|] eqn:Eti; [|discriminate].
    destruct (m !! identifier_of ti) as [d0|] eqn:Em.
    + destruct (IH m H k d Hk) as [Hm|(t' & ti' & Hin & Ht' & Hr)]; [left; exact Hm|].
      right. exists t', ti'. split; [right; exact Hin|]. auto.
    + destruct (Legacy.resolve_dependency env base ti) as [d0|e|e] eqn:Er;
        simpl in H; try discriminate.
      destruct (IH _ H k d Hk) as [Hm|(t' & ti' & Hin & Ht' & Hr)].
      * apply lookup_insert_Some in Hm as [[<- <-]|[_ Hm]]; [|left; exact Hm].
        right. exists t, ti. split; [left; reflexivity|]. auto.
      * right. exists t', ti'. split; [right; exact Hin|]. auto.
Qed.

(** ** Further properties of the resolvers *)

(** The earlier resolver (part_000): every dependency it stores for a file
    comes from one of the file's external type names, and the stored path,
    joined to the importing file's own output name, is the target's output
    name. *)
Theorem legacy_import_round_trip env r f ds :
  Legacy.collect_file env r f = Ret ds ->
  Forall (fun d => exists t ti,
      In t (Data.ExternalDependingTypes f) /\ Legacy.Types r !! t = Some ti /\
      Data.ModuleIdentifier d = GetModuleName env (Package ti) (File ti) /\
      path_Join [Data.TSFileName f; Data.SourceFile d] = Data.GetTSFileName (File ti)) ds.
Proof.
  intros H. unfold Legacy.collect_file in H.
  destruct (Legacy.collect_types env r _ ∅ _) as [m|e|e] eqn:Ec; simpl in H; try discriminate.
  injection H as <-. apply List.Forall_forall. intros d Hd.
  apply in_map_iff in Hd as ([k d'] & <- & Hin). simpl.
  apply list_elem_of_In, elem_of_map_to_list in Hin.
  destruct (legacy_collect_types_sound env r _ ∅ _ m Ec k d' Hin)
    as [He|(t & ti & Hin' & Ht & Hr)]; [rewrite lookup_empty in He; discriminate|].
  exists t, ti. split; [exact Hin'|]. split; [exact Ht|].
  unfold Legacy.resolve_dependency in Hr.
  destruct (Rel _ _) as [s|e|e] eqn:ER; simpl in Hr; try discriminate.
  injection Hr as <-. cbn [Data.ModuleIdentifier Data.SourceFile]. split; [reflexivity|].
  rewrite (Rel_round_trip _ _ _ ER). apply GetTSFileName_clean.
Qed.

Lemma legacy_import_round_trip_witness :
  Legacy.collect_file ex_env {| Legacy.Types := Types ex_reg |} ex_b =
    Ret [{| Data.ModuleIdentifier := "p1_a"; Data.SourceFile := "../a.ts" |}] /\
  Forall (fun d => exists t ti,
      In t (Data.ExternalDependingTypes ex_b) /\
      Legacy.Types {| Legacy.Types := Types ex_reg |} !! t = Some ti /\
      Data.ModuleIdentifier d = GetModuleName ex_env (Package ti) (File ti) /\
      path_Join [Data.TSFileName ex_b; Data.SourceFile d] = Data.GetTSFileName (File ti))
    [{| Data.ModuleIdentifier := "p1_a"; Data.SourceFile := "../a.ts" |}].
Proof.
  split; [vm_compute; reflexivity|].
  apply (legacy_import_round_trip ex_env {| Legacy.Types := Types ex_reg |} ex_b).
  vm_compute. reflexivity.
Defined.

(** External target, no alias: the stored path with [".ts"] put back,
    joined to the directory of the importing file's absolute name, is the
    output name of the first glob match. *)
Theorem external_relative_round_trip env r base typeInfo m0 ms absBase d :
  IsFileToGenerate r (File typeInfo) = false ->
  glob env (path_Join [TSImportRoot r; "**"; File typeInfo]) = Some (m0 :: ms) ->
  TSImportRootAlias r = "" ->
  Abs env base = Ret absBase ->
  resolve_dependency env r base typeInfo = Ret d ->
  path_Join [Dir absBase; Data.SourceFile d +:+ ".ts"] = Data.GetTSFileName m0.
Proof.
  intros Hgen Hglob Halias Habs Hd.
  assert (Hsp : source_path env r base typeInfo =
            wrap_err ("error looking up relative path for source file " +:+ Data.GetTSFileName m0)
                     (Rel (Dir absBase) (Data.GetTSFileName m0))).
  { unfold source_path. rewrite Hgen, Hglob. cbn [negb].
    rewrite Halias, decide_False by (intros Hn; apply Hn; reflexivity).
    rewrite Habs. reflexivity. }
  destruct (Rel (Dir absBase) (Data.GetTSFileName m0)) as [p|e|e] eqn:ER;
    simpl in Hsp; [|unfold resolve_dependency in Hd; rewrite Hsp in Hd; discriminate ..].
  rewrite (resolve_dependency_slice _ _ _ _ _ Hsp) in Hd.
  assert (Hcont : contains ".ts" p).
  { apply contains_LastIndex. unfold slice_to in Hd.
    destruct ((0 <=? LastIndex p ".ts") && _) eqn:Ec; [|discriminate].
    apply andb_prop in Ec as [Ec _]. apply Z.leb_le in Ec. exact Ec. }
  destruct (Rel_ts_suffix _ _ _ ER (contains_ts_t _ Hcont)) as [q ->].
  rewrite LastIndex_ts_suffix, slice_to_in_range, substring_app in Hd
    by (rewrite slength_app; lia).
  injection Hd as <-. cbn [Data.SourceFile].
  rewrite (Rel_round_trip _ _ _ ER). apply GetTSFileName_clean.
Qed.

Lemma external_relative_round_trip_witness :
  IsFileToGenerate (ex_reg_imported "/r" "") (File ex_Foo) = false /\
  glob ex_env_found (path_Join [TSImportRoot (ex_reg_imported "/r" ""); "**"; File ex_Foo]) =
    Some ["/r/r/a.proto"] /\
  Abs ex_env_found "b.ts" = Ret "/w/b.ts" /\
  resolve_dependency ex_env_found (ex_reg_imported "/r" "") "b.ts" ex_Foo =
    Ret {| Data.ModuleIdentifier := "p1_a"; Data.SourceFile := "../r/r/a" |} /\
  path_Join [Dir "/w/b.ts"; "../r/r/a" +:+ ".ts"] = Data.GetTSFileName "/r/r/a.proto".
Proof.
  split; [reflexivity|]. split; [vm_compute; reflexivity|].
  split; [vm_compute; reflexivity|]. split; [vm_compute; reflexivity|].
  apply (external_relative_round_trip ex_env_found (ex_reg_imported "/r" "") "b.ts" ex_Foo
           "/r/r/a.proto" [] "/w/b.ts"
           {| Data.ModuleIdentifier := "p1_a"; Data.SourceFile := "../r/r/a" |});
    [reflexivity | vm_compute; reflexivity | reflexivity | vm_compute; reflexivity
    | vm_compute; reflexivity].
Defined.

(** *** [strings.ReplaceAll] with the root occurring only as a prefix *)

Lemma replace_nonempty_absent (old new s : string) :
  ~ contains old s -> replace_nonempty old new O s = s.
Proof.
  induction s as [|c s IH]; intros H; [reflexivity|]. simpl.
  destruct (has_prefix old (String c s)) eqn:Hp.
  - exfalso. apply has_prefix_spec in Hp as [rest Hr]. apply H. exists "", rest. exact Hr.
  - rewrite IH; [reflexivity|]. intros Hc. apply H, contains_cons, Hc.
Qed.

Lemma replace_nonempty_skip (old new a r : string) :
  replace_nonempty old new (String.length a) (a +:+ r) = replace_nonempty old new O r.
Proof. induction a as [|c a IH]; [reflexivity|]. exact IH. Qed.

Lemma ReplaceAll_prefix_only (root alias rest : string) :
  root <> "" -> ~ contains root rest ->
  ReplaceAll (root +:+ rest) root alias = alias +:+ rest.
Proof.
  intros Hne Hc. destruct root as [|o root']; [congruence|].
  unfold ReplaceAll.
  change (replace_nonempty (String o root') alias O (String o (root' +:+ rest)) =
          alias +:+ rest).
  change (replace_nonempty (String o root') alias O (String o (root' +:+ rest)))
    with (if has_prefix (String o root') (String o (root' +:+ rest))
          then alias +:+ replace_nonempty (String o root') alias
                           (pred (String.length (String o root'))) (root' +:+ rest)
          else String o (replace_nonempty (String o root') alias O (root' +:+ rest))).
  replace (has_prefix (String o root') (String o (root' +:+ rest))) with true
    by (symmetry; apply (has_prefix_app (String o root') rest)).
  change (pred (String.length (String o root'))) with (String.length root').
  rewrite replace_nonempty_skip, replace_nonempty_absent by exact Hc. reflexivity.
Qed.

(** External target with an alias: when the output name of the first glob
    match starts with the import root and the root occurs nowhere in the
    rest of it, the computed path is the alias followed by that rest. *)
Theorem alias_prefix_only env r base typeInfo m0 ms rest :
  IsFileToGenerate r (File typeInfo) = false ->
  glob env (path_Join [TSImportRoot r; "**"; File typeInfo]) = Some (m0 :: ms) ->
  TSImportRootAlias r <> "" -> TSImportRoot r <> "" ->
  Data.GetTSFileName m0 = TSImportRoot r +:+ rest ->
  ~ contains (TSImportRoot r) rest ->
  source_path env r base typeInfo = Ret (TSImportRootAlias r +:+ rest).
Proof.
  intros Hgen Hglob Halias Hroot Hm Hc.
  unfold source_path. rewrite Hgen, Hglob. cbn [negb].
  rewrite decide_True by exact Halias. rewrite Hm.
  rewrite ReplaceAll_prefix_only by assumption. reflexivity.
Qed.

Lemma alias_prefix_only_witness :
  IsFileToGenerate (ex_reg_imported "/abs/root" "@gen") (File ex_Foo) = false /\
  source_path ex_env_sub (ex_reg_imported "/abs/root" "@gen") "b.ts" ex_Foo =
    Ret ("@gen" +:+ "/sub/a.ts").
Proof.
  split; [reflexivity|].
  apply (alias_prefix_only ex_env_sub (ex_reg_imported "/abs/root" "@gen") "b.ts" _ "/abs/root/sub/a.proto" []
           "/sub/a.ts");
    [reflexivity | reflexivity | discriminate | discriminate | vm_compute; reflexivity |].
  intros Hc. apply contains_LastIndex in Hc. vm_compute in Hc. apply Hc. reflexivity.
Defined.

(** *** Registry construction *)

Lemma is_rooted_path_Join (wd : string) (l : list string) :
  is_rooted wd = true -> is_rooted (path_Join (wd :: l)) = true.
Proof.
  intros H. assert (Hne : wd <> "") by (intros ->; discriminate).
  unfold path_Join. rewrite filter_cons_True by exact Hne.
  rewrite Clean_rooted, join_slash_cons, is_rooted_app by exact Hne. exact H.
Qed.

Lemma Clean_slash_dot (b : string) : b <> "" -> Clean (b +:+ String slash ".") = Clean b.
Proof.
  intros Hb. rewrite Clean_app_slash by exact Hb.
  change (Clean b) with (render (is_rooted b) (clean_segs (is_rooted b) (split_slash b))).
  rewrite (Clean_render_app _ _ _ (clean_segs_ok (is_rooted b) b)), split_dot.
  cbn [fold_left]. rewrite clean_step_dot, rev_involutive. reflexivity.
Qed.

(** The import root [getTSImportRootInformation] returns is always absolute,
    given that the working directory is. *)
Theorem import_root_absolute env pm root alias :
  (forall wd, getwd env = Some wd -> is_rooted wd = true) ->
  getTSImportRootInformation env pm = Ret (root, alias) ->
  is_rooted root = true.
Proof.
  intros Hwd H. unfold getTSImportRootInformation in H.
  destruct (is_rooted (match pm !! TSImportRootParamsKey with Some v => v | None => "." end))
    eqn:Ep; simpl in H.
  - injection H as <- _. exact Ep.
  - unfold Abs in H. rewrite Ep in H.
    destruct (getwd env) as [wd|] eqn:Ew; simpl in H; [|discriminate].
    injection H as <- _. apply is_rooted_path_Join, Hwd. reflexivity.
Qed.

Lemma import_root_absolute_witness :
  (forall wd, getwd ex_env = Some wd -> is_rooted wd = true) /\
  getTSImportRootInformation ex_env ∅ = Ret ("/w", "") /\ is_rooted "/w" = true.
Proof.
  assert (Hwd : forall wd, getwd ex_env = Some wd -> is_rooted wd = true)
    by (simpl; intros wd Hw; injection Hw as <-; reflexivity).
  split; [exact Hwd|]. split; [vm_compute; reflexivity|].
  apply (import_root_absolute ex_env ∅ "/w" ""); [exact Hwd | vm_compute; reflexivity].
Defined.

(** With no [ts_import_root] parameter the import root is the cleaned
    working directory; with no [ts_import_root_alias] the alias is empty. *)
Theorem import_root_default env pm wd :
  pm !! TSImportRootParamsKey = None -> getwd env = Some wd -> wd <> "" ->
  getTSImportRootInformation env pm =
    Ret (Clean wd, match pm !! TSImportRootAliasParamsKey with Some v => v | None => "" end).
Proof.
  intros Hk Hw Hne. unfold getTSImportRootInformation. rewrite Hk.
  change (is_rooted ".") with false. cbn [negb]. unfold Abs.
  change (is_rooted ".") with false. rewrite Hw. simpl.
  unfold path_Join. rewrite filter_cons_True by exact Hne.
  rewrite filter_cons_True by discriminate. rewrite filter_nil.
  change (join_slash [wd; "."]) with (wd +:+ String slash ".").
  rewrite Clean_slash_dot by exact Hne. reflexivity.
Qed.

Lemma import_root_default_witness :
  getTSImportRootInformation
    {| glob := fun _ => Some []; getwd := Some "/w/x/../y/";
       GetModuleName := fun pkg file => pkg |} ∅ = Ret ("/w/y", "").
Proof.
  rewrite (import_root_default _ ∅ "/w/x/../y/"); [vm_compute; reflexivity | reflexivity
    | reflexivity | discriminate].
Defined.

(** *** Identifier helpers *)

Lemma strings_Join_snoc (l : list string) (x sep : string) :
  strings_Join (l ++ [x]) sep =
    match l with [] => x | _ => strings_Join l sep +:+ sep +:+ x end.
Proof.
  induction l as [|a l IH]; [reflexivity|].
  rewrite <- app_comm_cons.
  change (strings_Join (a :: l ++ [x]) sep) with
    (match l ++ [x] with [] => a | _ => a +:+ sep +:+ strings_Join (l ++ [x]) sep end).
  destruct (l ++ [x]) as [|y l'] eqn:E; [destruct l; discriminate|].
  rewrite IH. destruct l as [|b l]; [reflexivity|].
  change (strings_Join (a :: b :: l) sep) with (a +:+ sep +:+ strings_Join (b :: l) sep).
  rewrite <- !append_assoc. reflexivity.
Qed.

(** The parent prefix followed by a name is the dotted path of the parents
    and the name. *)
Theorem getParentPrefixes_dotted (parents : list string) (name : string) :
  getParentPrefixes parents +:+ name = strings_Join (parents ++ [name]) ".".
Proof.
  unfold getParentPrefixes. rewrite strings_Join_snoc.
  destruct parents as [|p ps]; [reflexivity|].
  change (Nat.ltb 0 (length (p :: ps))) with true. cbv beta iota.
  rewrite <- append_assoc. reflexivity.
Qed.

(** Entering one more nesting level [p] appends [p] and a dot to the
    prefix. *)
Theorem getParentPrefixes_snoc (parents : list string) (p : string) :
  getParentPrefixes (parents ++ [p]) = getParentPrefixes parents +:+ p +:+ ".".
Proof.
  unfold getParentPrefixes. rewrite length_app. simpl length.
  replace (Nat.ltb 0 (length parents + 1)) with true
    by (symmetry; apply Nat.ltb_lt; lia).
  rewrite strings_Join_snoc. destruct parents as [|q qs]; [reflexivity|].
  change (Nat.ltb 0 (length (q :: qs))) with true. cbv beta iota.
  rewrite <- !append_assoc. reflexivity.
Qed.

(** The package-level identifier has no separator: the last parent and the
    local name run together, so different (parents, name) inputs can give the
    same identifier. *)
Theorem getNameOfPackageLevelIdentifier_boundary (parents : list string) (p name : string) :
  getNameOfPackageLevelIdentifier (parents ++ [p]) name =
  getNameOfPackageLevelIdentifier parents (p +:+ name).
Proof.
  unfold getNameOfPackageLevelIdentifier. rewrite strings_Join_snoc.
  destruct parents as [|q qs]; [reflexivity|].
  rewrite <- !append_assoc. reflexivity.
Qed.

(** *** Edge cases of the resolver *)

(** With an empty current package name, no type name is external (both
    copies of the predicate). *)
Theorem isExternal_empty_package (fq : string) :
  isExternalDependenciesOutsidePackage fq "" = false /\
  Legacy.isExternalDependencies fq "" = false.
Proof.
  unfold isExternalDependenciesOutsidePackage, Legacy.isExternalDependencies.
  change ("." +:+ "") with ".". destruct (Index fq "." =? 0); split; reflexivity.
Qed.

Lemma append_dependencies_nil (f : Data.File) : append_dependencies f [] = f.
Proof. destruct f. unfold append_dependencies. simpl. rewrite app_nil_r. reflexivity. Qed.

Lemma collect_files_no_external env r files :
  Forall (fun nf => Data.ExternalDependingTypes nf.2 = []) files ->
  collect_files env r files = (Ret tt, files).
Proof.
  induction files as [|[n f] rest IH]; intros H; [reflexivity|].
  inversion H as [|? ? Hf Hrest]; subst. simpl in Hf. simpl.
  unfold collect_file. rewrite Hf. simpl. rewrite map_to_list_empty. simpl.
  rewrite (IH Hrest), append_dependencies_nil. reflexivity.
Qed.

(** A run in which no file depends on an external type succeeds and
    changes nothing. *)
Theorem collect_no_external_types env st :
  Forall (fun nf => Data.ExternalDependingTypes nf.2 = []) (filesData st) ->
  collectExternalDependenciesFromData env st = (Ret tt, st).
Proof.
  intros H. destruct st as [r files]. unfold collectExternalDependenciesFromData. simpl in *.
  rewrite (collect_files_no_external env r files H). reflexivity.
Qed.

Lemma collect_no_external_types_witness :
  Forall (fun nf => Data.ExternalDependingTypes nf.2 = [])
    (filesData {| reg := ex_reg; filesData := [("a.proto",
       {| Data.TSFileName := "a.ts"; Data.ExternalDependingTypes := [];
          Data.Dependencies := [] |})] |}) /\
  collectExternalDependenciesFromData ex_env_bad_pattern
    {| reg := ex_reg; filesData := [("a.proto",
       {| Data.TSFileName := "a.ts"; Data.ExternalDependingTypes := [];
          Data.Dependencies := [] |})] |} =
  (Ret tt, {| reg := ex_reg; filesData := [("a.proto",
       {| Data.TSFileName := "a.ts"; Data.ExternalDependingTypes := [];
          Data.Dependencies := [] |})] |}).
Proof.
  assert (H : Forall (fun nf => Data.ExternalDependingTypes nf.2 = [])
    (filesData {| reg := ex_reg; filesData := [("a.proto",
       {| Data.TSFileName := "a.ts"; Data.ExternalDependingTypes := [];
          Data.Dependencies := [] |})] |}))
    by (simpl; constructor; [reflexivity|constructor]).
  split; [exact H|]. apply (collect_no_external_types ex_env_bad_pattern _ H).
Defined.

(** *** In-run resolution does not fail *)

Lemma upto_last_slash_decomp (s : string) :
  (upto_last_slash s = "" /\ slash_free s) \/
  exists u rest, s = u +:+ String slash rest /\
                 upto_last_slash s = u +:+ String slash "" /\ slash_free rest.
Proof.
  induction s as [|c s IH]; [left; split; [reflexivity|apply slash_free_empty]|].
  simpl. destruct IH as [[Hr Hs]|(u & rest & Hs & Hr & Hf)].
  - rewrite Hr, decide_True by reflexivity.
    destruct (decide (c = slash)) as [->|Hc].
    + right. exists "", s. auto.
    + left. split; [reflexivity|]. apply slash_free_cons_intro; assumption.
  - rewrite Hr. rewrite decide_False by (destruct u; discriminate).
    right. exists (String c u), rest. rewrite Hs. auto.
Qed.

Lemma split_upto_no_dd (s : string) :
  ~ In ".." (split_slash s) -> ~ In ".." (split_slash (upto_last_slash s)).
Proof.
  intros H. destruct (upto_last_slash_decomp s) as [[-> _]|(u & rest & Hs & -> & Hf)].
  - simpl. intros [Hd|[]]. discriminate.
  - rewrite split_slash_app. rewrite Hs, split_slash_app in H.
    intros Hin. apply in_app_or in Hin as [Hin|[Hd|[]]]; [|discriminate].
    apply H, in_or_app. left. exact Hin.
Qed.

Lemma fold_clean_no_dd (r : bool) (l st : list string) :
  ~ In ".." l -> ~ In ".." st -> ~ In ".." (fold_left (clean_step r) l st).
Proof.
  revert st; induction l as [|x l IH]; intros st Hl Hst; [exact Hst|].
  simpl. apply IH; [intros Hin; apply Hl; right; exact Hin|].
  unfold clean_step.
  destruct (decide (x = "")); [exact Hst|]. destruct (decide (x = ".")); [exact Hst|].
  destruct (decide (x = "..")) as [->|Hx]; [exfalso; apply Hl; left; reflexivity|].
  intros [Hd|Hin]; [congruence|exact (Hst Hin)].
Qed.

Lemma clean_segs_no_dd (r : bool) (l : list string) :
  ~ In ".." l -> ~ In ".." (clean_segs r l).
Proof.
  intros H Hin. unfold clean_segs in Hin. apply in_rev in Hin.
  exact (fold_clean_no_dd r l [] H (fun x => x) Hin).
Qed.

Lemma is_rooted_upto (s : string) : is_rooted (upto_last_slash s) = is_rooted s.
Proof.
  induction s as [|c s IH]; [reflexivity|]. simpl.
  destruct (decide (upto_last_slash s = "")) as [Hr|Hr].
  - destruct (decide (c = slash)) as [->|Hc]; [reflexivity|].
    unfold is_rooted. simpl. case_decide; [exfalso; apply Hc; unfold slash; congruence|reflexivity].
  - reflexivity.
Qed.

Lemma is_rooted_Dir (s : string) : is_rooted (Dir s) = is_rooted s.
Proof. unfold Dir. rewrite Clean_rooted. apply is_rooted_upto. Qed.

Lemma is_rooted_GetTSFileName (f : string) : is_rooted (Data.GetTSFileName f) = is_rooted f.
Proof.
  unfold Data.GetTSFileName, path_Join.
  assert (Hne : Dir f <> "").
  { unfold Dir. apply render_nonempty, clean_segs_ok. }
  rewrite filter_cons_True by exact Hne.
  rewrite Clean_rooted, join_slash_cons, is_rooted_app by exact Hne. apply is_rooted_Dir.
Qed.

(** [filepath.Rel] succeeds when both paths are rooted or both relative and
    the cleaned base has no [".."] element. *)
Lemma Rel_succeeds (b t : string) :
  is_rooted b = is_rooted t ->
  ~ In ".." (clean_segs (is_rooted b) (split_slash b)) ->
  exists s, Rel b t = Ret s.
Proof.
  intros Hr Hdd.
  set (rb := is_rooted b) in *. set (SB := clean_segs rb (split_slash b)) in *.
  set (rt := is_rooted t) in *. set (ST := clean_segs rt (split_slash t)).
  pose proof (clean_segs_ok rb b) as HB. pose proof (clean_segs_ok rt t) as HT.
  fold SB in HB. fold ST in HT.
  unfold Rel.
  destruct (decide (Clean t = Clean b)); [eexists; reflexivity|].
  change (Clean b) with (render rb SB). change (Clean t) with (render rt ST).
  rewrite (is_rooted_render _ _ HB), (is_rooted_render _ _ HT).
  replace (Bool.eqb rb rt) with true by (rewrite Hr; symmetry; apply Bool.eqb_reflx).
  cbn [negb].
  rewrite (rel_segs_render _ _ HB), (rel_segs_render _ _ HT).
  destruct (strip_common_prefix SB ST) as (C & E1 & _).
  destruct (strip_common SB ST) as [B T]. simpl in E1.
  destruct B as [|b0 B']; [eexists; reflexivity|].
  assert (Hb0 : b0 <> ".." /\ b0 <> "").
  { split.
    - intros ->. apply Hdd. rewrite E1. apply in_or_app. right. left. reflexivity.
    - pose proof HB as (Hs & _). rewrite E1 in Hs. apply Forall_app in Hs as [_ Hs].
      inversion Hs as [|? ? (H0 & _) _]. exact H0. }
  destruct Hb0 as [Hbd Hbe].
  repeat match goal with
  | |- context [match ?x with _ => _ end] =>
      lazymatch type of x with
      | string => destruct x
      | ascii => destruct x
      | bool => destruct x
      end
  end;
  try (eexists; reflexivity); exfalso; first [exact (Hbd eq_refl) | exact (Hbe eq_refl)].
Qed.

(** For a target generated in this run, when the importing file's output name
    and the target's declaring file are both absolute or both relative and
    the importing file's name has no [".."] element, the path computation
    does not fail. *)
Theorem in_run_path_succeeds env r base typeInfo :
  IsFileToGenerate r (File typeInfo) = true ->
  is_rooted base = is_rooted (File typeInfo) ->
  ~ In ".." (split_slash base) ->
  exists p, source_path env r base typeInfo = Ret p.
Proof.
  intros Hgen Hr Hdd.
  destruct (Rel_succeeds (Dir base) (Data.GetTSFileName (File typeInfo))) as [s Hs].
  - rewrite is_rooted_Dir, is_rooted_GetTSFileName. exact Hr.
  - unfold Dir, Clean. cbv zeta.
    rewrite (clean_segs_render _ _ (clean_segs_ok _ _)).
    apply clean_segs_no_dd, split_upto_no_dd, Hdd.
  - unfold source_path. rewrite Hgen. cbn [negb]. rewrite Hs. simpl.
    eexists. reflexivity.
Qed.

Lemma in_run_path_succeeds_witness :
  IsFileToGenerate ex_reg (File ex_Foo) = true /\
  is_rooted "x/y/b.ts" = is_rooted (File ex_Foo) /\
  ~ In ".." (split_slash "x/y/b.ts") /\
  exists p, source_path ex_env ex_reg "x/y/b.ts" ex_Foo = Ret p.
Proof.
  assert (Hdd : ~ In ".." (split_slash "x/y/b.ts")).
  { vm_compute. intros [H|[H|[H|[]]]]; discriminate. }
  split; [reflexivity|]. split; [reflexivity|]. split; [exact Hdd|].
  apply (in_run_path_succeeds ex_env ex_reg "x/y/b.ts" ex_Foo); [reflexivity|reflexivity|exact Hdd].
Defined.
